(** * dnsmasq-viewer backend: lease file reader, lease line parser, record
      serialisation

    A shallow embedding of [backend/lease_parser.py], [backend/exceptions.py]
    and [LeaseRecord.serialise] of [backend/validators.py].

    Conventions of the embedding:
    - a Python [str] is a [string]; its characters are code points below 256;
    - an exception is a value with a class and its constructor arguments;
      [except C] clauses test the class with [isinstance];
    - the functions run in a small monad that threads the lines written to
      standard output and carries a raised exception;
    - [netaddr] and [arrow] are third-party libraries: their constructors and
      [str] renderings are the fields of the class [Libs];
    - the file system is a function giving, for every path, what [open] and
      [readlines] do there. *)

From Stdlib Require Import ZArith Lia Ascii.
From stdpp Require Import base option list strings pretty gmap.

(** ** Exceptions *)

(** The exception classes that the code raises, catches, or can receive from
    the builtins it calls.  [IOError] is Python 3's alias of [OSError]. *)
Inductive exn_class : Set :=
  | Exception
  | ValueError
  | UnicodeDecodeError
  | TypeError
  | AttributeError
  | OSError
  | FileNotFoundError
  | PermissionError
  | IsADirectoryError
  | AddrFormatError
  | ParserError
  | LeaseParseError.

Abbreviation IOError := OSError (only parsing).

#[global] Instance exn_class_eq_dec : EqDecision exn_class.
Proof. solve_decision. Defined.

(** The direct base class. [LeaseParseError] derives from [Exception]
    (exceptions.py); the others are the builtin hierarchy. *)
Definition base_class (c : exn_class) : option exn_class :=
  match c with
  | Exception => None
  | UnicodeDecodeError => Some ValueError
  | FileNotFoundError | PermissionError | IsADirectoryError => Some OSError
  | ValueError | TypeError | AttributeError | OSError
  | AddrFormatError | ParserError | LeaseParseError => Some Exception
  end.

(** [issubclass c d]; the hierarchy above has depth two. *)
Definition issubclass (c d : exn_class) : bool :=
  bool_decide (c = d)
  || match base_class c with
     | Some b => bool_decide (b = d)
                 || match base_class b with
                    | Some b' => bool_decide (b' = d)
                    | None => false
                    end
     | None => false
     end.

(** An exception instance: its class and the arguments it was built with
    ([raise LeaseParseError] builds an instance without arguments). *)
Record exn : Set := mk_exn { exn_cls : exn_class; exn_args : list string }.

#[global] Instance exn_eq_dec : EqDecision exn.
Proof. solve_decision. Defined.

Definition isinstance (e : exn) (c : exn_class) : bool :=
  issubclass (exn_cls e) c.

(** [except (C1, ..., Cn)] *)
Definition caught_by (cs : list exn_class) (e : exn) : bool :=
  existsb (isinstance e) cs.

(** ** Outcomes and the output monad *)

Inductive result (A : Type) : Type :=
  | Ok (a : A)
  | Raise (e : exn).
Arguments Ok {A} a.
Arguments Raise {A} e.

Definition is_ok {A} (r : result A) : Prop := exists a, r = Ok a.

(** What [print] wrote.  [Processing] stands for the line built by
    ['Processing: {},\n{}'.format(lease_line, lease_line.split(' '))] and
    keeps the two arguments of [format]. *)
Inductive output : Type :=
  | PreOpen
  | InsideOpen
  | InsideIOError
  | RaisingLeaseParseError
  | Processing (lease_line : string) (fields : list string).

(** A computation takes what was written so far and gives its outcome and
    what is written afterwards. *)
Definition IO (A : Type) : Type := list output -> result A * list output.

Definition ret {A} (a : A) : IO A := fun out => (Ok a, out).
Definition raise {A} (e : exn) : IO A := fun out => (Raise e, out).
Definition print (o : output) : IO unit := fun out => (Ok tt, out ++ [o]).
Definition lift {A} (r : result A) : IO A := fun out => (r, out).

Definition bind {A B} (m : IO A) (k : A -> IO B) : IO B :=
  fun out =>
    match m out with
    | (Ok a, out') => k a out'
    | (Raise e, out') => (Raise e, out')
    end.

(** [try: m except cs: h] *)
Definition try_except {A} (m : IO A) (cs : list exn_class) (h : IO A) : IO A :=
  fun out =>
    match m out with
    | (Ok a, out') => (Ok a, out')
    | (Raise e, out') => if caught_by cs e then h out' else (Raise e, out')
    end.

Declare Scope io_scope.
Delimit Scope io_scope with io.
Notation "x <- m ;; k" := (bind m (fun x => k))
  (at level 100, m at next level, right associativity) : io_scope.
Notation "m ;;; k" := (bind m (fun _ => k))
  (at level 100, right associativity) : io_scope.

(** ** Python values *)

(** The values a caller can pass where a [str] is expected. *)
#[warnings="-register-all"] Inductive py_value : Type :=
  | PyNone
  | PyBool (b : bool)
  | PyInt (n : Z)
  | PyStr (s : string)
  | PyBytes (s : string)
  | PyList (l : list py_value).

(** Truth value testing. *)
Definition truthy (v : py_value) : bool :=
  match v with
  | PyNone => false
  | PyBool b => b
  | PyInt n => negb (n =? 0)%Z
  | PyStr s => negb (bool_decide (s = ""))
  | PyBytes s => negb (bool_decide (s = ""))
  | PyList l => match l with [] => false | _ => true end
  end.

(** [isinstance(v, str)] *)
Definition is_str (v : py_value) : bool :=
  match v with PyStr _ => true | _ => false end.

(** ** [str.strip] and [str.split] *)

(** [str.isspace] on one character, for code points below 256:
    9..13, 28..31, 32, 133 and 160. *)
Definition isspace (c : ascii) : bool :=
  let n := nat_of_ascii c in
  ((9 <=? n) && (n <=? 13)) || ((28 <=? n) && (n <=? 32))
  || (n =? 133) || (n =? 160).

Fixpoint lstrip (s : string) : string :=
  match s with
  | EmptyString => EmptyString
  | String c s' => if isspace c then lstrip s' else s
  end.

Fixpoint rstrip (s : string) : string :=
  match s with
  | EmptyString => EmptyString
  | String c s' =>
      match rstrip s' with
      | EmptyString => if isspace c then EmptyString else String c EmptyString
      | r => String c r
      end
  end.

(** [s.strip()] *)
Definition strip (s : string) : string := rstrip (lstrip s).

(** [s.split(sep)] for a one-character separator: every occurrence of the
    separator ends a field, so adjacent separators give empty fields and the
    result is never empty. *)
Fixpoint split (sep : ascii) (s : string) : list string :=
  match s with
  | EmptyString => [EmptyString]
  | String c s' =>
      if Ascii.eqb c sep then EmptyString :: split sep s'
      else match split sep s' with
           | t :: ts => String c t :: ts
           | [] => [String c EmptyString]
           end
  end.

(** [sep.join(l)] *)
Fixpoint join (sep : string) (l : list string) : string :=
  match l with
  | [] => ""
  | [t] => t
  | t :: ts => t +:+ sep +:+ join sep ts
  end.

(** [c in s] *)
Fixpoint contains (c : ascii) (s : string) : bool :=
  match s with
  | EmptyString => false
  | String c' s' => Ascii.eqb c' c || contains c s'
  end.

(** ** The third-party libraries *)

(** [netaddr.IPAddress], [netaddr.EUI] and [arrow.get] applied to a [str], and
    [str] applied to the objects they build.  A constructor either returns an
    object or raises. *)
Class Libs : Type := {
  ip : Type;
  eui : Type;
  arrow : Type;
  IPAddress : string -> result ip;
  EUI : string -> result eui;
  arrow_get : string -> result arrow;
  str_ip : ip -> string;
  str_eui : eui -> string;
  str_arrow : arrow -> string
}.

(** ** [LeaseRecord] *)

(** The class of validators.py: three fields that hold library objects and
    two [str] fields.  [parse_lease] builds it from keyword arguments of the
    declared types; [validate] of the three field validators returns such
    an object as it is. *)

Record LeaseRecord `{Libs} : Type := mk_LeaseRecord {
  ip_address : ip;
  mac_address : eui;
  lease_expiry_time : arrow;
  client_id : string;
  hostname : string
}.

(** [LeaseRecord.serialise]: a [dict] from [str] to [str]. *)
Definition serialise `{Libs} (self : LeaseRecord) : gmap string string :=
  <["ip_address" := str_ip (ip_address self)]>
  (<["mac_address" := str_eui (mac_address self)]>
  (<["lease_expiry_time" := str_arrow (lease_expiry_time self)]>
  (<["client_id" := client_id self]>
  (<["hostname" := hostname self]> ∅)))).

(** ** [parse_lease] *)

(** [a, b, c, d, e = l] *)
Definition unpack5 (l : list string)
  : result (string * string * string * string * string) :=
  match l with
  | [a; b; c; d; e] => Ok (a, b, c, d, e)
  | _ =>
      if (length l <? 5)%nat
      then Raise (mk_exn ValueError
             ["not enough values to unpack (expected 5, got "
              +:+ pretty (length l) +:+ ")"])
      else Raise (mk_exn ValueError ["too many values to unpack (expected 5)"])
  end.

Definition must_provide_string : exn :=
  mk_exn ValueError ["Must provide a string input"].

Definition address_error (lease_line : string) : exn :=
  mk_exn LeaseParseError
    ["Unable to parse IP or Mac address in " +:+ lease_line].

Definition expiry_error : exn :=
  mk_exn LeaseParseError ["Unable to parse lease expiry time"].

Section parse_lease.
Context `{Libs}.
Local Open Scope io_scope.

(** The body of [parse_lease] once [lease_line] is known to be a
    non-empty [str]. *)
Definition parse_lease_str (lease_line : string) : IO LeaseRecord :=
  print (Processing lease_line (split " " lease_line));;;
  fields <- lift (unpack5 (split " " (strip lease_line)));;
  let '(expiry_time, mac_address, ip_address, hostname, client_id) := fields in
  addrs <- try_except
             (ip_address <- lift (IPAddress ip_address);;
              mac_address <- lift (EUI mac_address);;
              ret (ip_address, mac_address))
             [AttributeError; AddrFormatError]
             (raise (address_error lease_line));;
  expiry_time <- try_except
                   (lift (arrow_get expiry_time))
                   [ValueError; ParserError]
                   (raise expiry_error);;
  let hostname := if bool_decide (hostname = "*") then "" else hostname in
  let client_id := if bool_decide (client_id = "*") then "" else client_id in
  ret {| client_id := client_id;
         hostname := hostname;
         ip_address := fst addrs;
         lease_expiry_time := expiry_time;
         mac_address := snd addrs |}.

Definition parse_lease (lease_line : py_value) : IO LeaseRecord :=
  if negb (truthy lease_line) || negb (is_str lease_line)
  then raise must_provide_string
  else match lease_line with
       | PyStr s => parse_lease_str s
       | _ => raise must_provide_string
       end.

End parse_lease.

(** ** [get_lease_file] *)

(** What [open(path, 'r')] does: it raises, or it gives a file object whose
    [readlines()] returns the lines of the file or raises. *)
Inductive open_outcome : Type :=
  | OpenRaises (e : exn)
  | Opened (readlines : result (list string)).

Definition filesystem : Type := string -> open_outcome.

Definition default_lease_files : list string :=
  ["/var/lib/misc/dnsmasq.leases"; "/etc/dnsmasq.d/dnsmasq.leases"].

(** [files_to_try] after the optional [path] was inserted in front. *)
Definition files_to_try (path : py_value) : list string :=
  if truthy path && is_str path
  then match path with
       | PyStr p => p :: default_lease_files
       | _ => default_lease_files
       end
  else default_lease_files.

Section get_lease_file.
Variable fs : filesystem.
Local Open Scope io_scope.

(** The [with open(file, 'r')] block of one iteration. *)
Definition read_file (file : string) : IO (list string) :=
  print PreOpen;;;
  match fs file with
  | OpenRaises e => raise e
  | Opened readlines =>
      print InsideOpen;;;
      file_contents <- lift readlines;;
      ret file_contents
  end.

(** The [for file in files_to_try] loop and the [raise] after it. *)
Fixpoint try_files (files : list string) : IO (list string) :=
  match files with
  | [] =>
      print RaisingLeaseParseError;;;
      raise (mk_exn LeaseParseError [])
  | file :: rest =>
      try_except (read_file file) [IOError]
        (print InsideIOError;;; try_files rest)
  end.

Definition get_lease_file (path : py_value) : IO (list string) :=
  try_files (files_to_try path).

End get_lease_file.

(** ** [leases] (api/api.py) *)

Definition startswith_sep (s : string) : bool :=
  match s with
  | String c _ => Ascii.eqb c "/"
  | EmptyString => false
  end.

Fixpoint endswith_sep (s : string) : bool :=
  match s with
  | EmptyString => false
  | String c EmptyString => Ascii.eqb c "/"
  | String _ s' => endswith_sep s'
  end.

(** [os.path.join(a, b)] of [posixpath]. *)
Definition path_join (a b : string) : string :=
  if startswith_sep b then b
  else if bool_decide (a = "") || endswith_sep a then a +:+ b
  else a +:+ "/" +:+ b.

Section leases.
Context `{Libs}.
Variable fs : filesystem.
(** [dirname(__file__)] of the module api.py. *)
Variable module_dir : string.
Local Open Scope io_scope.

(** The path that the handler hands to [get_lease_file]. *)
Definition static_leasefile : string :=
  path_join module_dir "../../static/leasefile".

(** The list comprehension
    [[parse_lease(lease).serialise() for lease in lines]]. *)
Fixpoint serialise_leases (lines : list string)
  : IO (list (gmap string string)) :=
  match lines with
  | [] => ret []
  | lease :: rest =>
      record <- parse_lease (PyStr lease);;
      records <- serialise_leases rest;;
      ret (serialise record :: records)
  end.

Definition leases : IO (list (gmap string string)) :=
  lines <- get_lease_file fs (PyStr static_leasefile);;
  serialise_leases lines.

End leases.

(** ** The validators (validators.py)

    [allow_null] and [error] come from the base class of apistar; the calls
    of [LOG.debug] are left out. *)

(** The values that are handed to [validate]: builtin values and the objects
    of the three library classes.  A [float], a [date] and a [datetime] are
    kept as what identifies them; the model does not compute with them. *)
Inductive value `{Libs} : Type :=
  | VNone
  | VBool (b : bool)
  | VInt (n : Z)
  | VFloat (bits : Z)
  | VStr (s : string)
  | VBytes (s : string)
  | VDate (ordinal : Z)
  | VDatetime (timestamp : Z)
  | VArrow (t : arrow)
  | VIPAddress (a : ip)
  | VEUI (m : eui).

(** The classes that the validators test with [isinstance]. *)
Inductive py_class : Set :=
  | Cstr | Cint | Cfloat | Cdate | Cdatetime | CArrow | CIPAddress | CEUI.

(** [isinstance(v, c)]: [bool] derives from [int] and [datetime] from
    [date]. *)
Definition value_isinstance `{Libs} (v : value) (c : py_class) : bool :=
  match v, c with
  | VStr _, Cstr => true
  | VInt _, Cint | VBool _, Cint => true
  | VFloat _, Cfloat => true
  | VDate _, Cdate | VDatetime _, Cdate => true
  | VDatetime _, Cdatetime => true
  | VArrow _, CArrow => true
  | VIPAddress _, CIPAddress => true
  | VEUI _, CEUI => true
  | _, _ => false
  end.

(** [isinstance(v, (c1, ..., cn))] *)
Definition value_isinstance_any `{Libs} (v : value) (cs : list py_class)
  : bool :=
  existsb (value_isinstance v) cs.

(** The library calls of the validators, on a value rather than on a [str],
    with and without the second argument, and the [==] of the library
    objects with [None] and with a [str]. *)
Class ValueLibs `{Libs} : Type := {
  arrow_get_value : value -> result arrow;
  arrow_get_format : value -> string -> result arrow;
  IPAddress_value : value -> result ip;
  IPAddress_version : value -> Z -> result ip;
  EUI_value : value -> result eui;
  EUI_version : value -> Z -> result eui;
  arrow_eq : arrow -> py_value -> bool;
  ip_eq : ip -> py_value -> bool;
  eui_eq : eui -> py_value -> bool
}.

(** [value == example], for an example that is [None] or a [str]. *)
Definition value_eq `{ValueLibs} (v : value) (example : py_value) : bool :=
  match v, example with
  | VNone, PyNone => true
  | VStr s, PyStr s' => bool_decide (s = s')
  | VArrow t, _ => arrow_eq t example
  | VIPAddress a, _ => ip_eq a example
  | VEUI m, _ => eui_eq m example
  | _, _ => false
  end.

(** How a call of [validate] ends: it returns an object, it returns [None],
    it calls [self.error(code)] of the base class, which raises
    [ValidationError], or it lets an exception of the library through. *)
Inductive validated (A : Type) : Type :=
  | Returns (a : A)
  | ReturnsNone
  | Error (code : string)
  | Raises (e : exn).
Arguments Returns {A} a.
Arguments ReturnsNone {A}.
Arguments Error {A} code.
Arguments Raises {A} e.

(** The class attribute [null_values], the same in the three classes. *)
Definition null_values : list py_value :=
  [PyNone; PyStr ""; PyStr "null"; PyStr "none"].

(** The class attributes [errors]. *)
Definition ArrowValidator_errors : gmap string string :=
  <["type" := "Must be a valid Arrow Type"]>
  (<["parse" := "Must be a parsable string or number that can be interpreted by arrow.get()"]>
  (<["null" := "May not be null"]> ∅)).

Definition IPAddressValidator_errors : gmap string string :=
  <["type" := "Must be a valid IPAddress Type"]>
  (<["parse" := "Must be a parsable string or number that can be interpreted by netaddr.IPAddress()"]>
  (<["null" := "May not be null"]> ∅)).

Definition MACValidator_errors : gmap string string :=
  <["type" := "Must be a valid EUI Type"]>
  (<["parse" := "Must be a parsable string or number that can be interpreted by netaddr.EUI()"]>
  (<["null" := "May not be null"]> ∅)).

(** The attributes of a validator: [allow_null] of the base class and the
    argument of its own [__init__]. *)
Record ArrowValidator : Set := mk_ArrowValidator {
  arrow_allow_null : bool;
  format_str : option string
}.

Record IPAddressValidator : Set := mk_IPAddressValidator {
  ip_allow_null : bool;
  ip_version : option Z
}.

Record MACValidator : Set := mk_MACValidator {
  mac_allow_null : bool;
  mac_version : option Z
}.

(** [ArrowValidator.__init__]: [None] stands for the [AssertionError] of
    [assert format_str is None or isinstance(format_str, str)]. *)
Definition ArrowValidator_init (format_str : py_value) (allow_null : bool)
  : option ArrowValidator :=
  match format_str with
  | PyNone => Some (mk_ArrowValidator allow_null None)
  | PyStr s => Some (mk_ArrowValidator allow_null (Some s))
  | _ => None
  end.

(** [version is None or (isinstance(version, int) and version in versions)],
    and the attribute that is stored when it holds. *)
Definition checked_version (versions : list Z) (version : py_value)
  : option (option Z) :=
  match version with
  | PyNone => Some None
  | PyInt n => if bool_decide (n ∈ versions) then Some (Some n) else None
  | PyBool b =>
      if bool_decide ((if b then 1 else 0)%Z ∈ versions)
      then Some (Some (if b then 1 else 0)%Z) else None
  | _ => None
  end.

(** [IPAddressValidator.__init__] *)
Definition IPAddressValidator_init (version : py_value) (allow_null : bool)
  : option IPAddressValidator :=
  match checked_version [4; 6]%Z version with
  | Some v => Some (mk_IPAddressValidator allow_null v)
  | None => None
  end.

(** [MACValidator.__init__] *)
Definition MACValidator_init (version : py_value) (allow_null : bool)
  : option MACValidator :=
  match checked_version [48; 64]%Z version with
  | Some v => Some (mk_MACValidator allow_null v)
  | None => None
  end.

Section validate.
Context `{ValueLibs}.

(** The loop over [null_values] at the head of each [validate]: [None] when
    it ends without a match. *)
Fixpoint null_check {A} (allow_null : bool) (v : value)
    (examples : list py_value) : option (validated A) :=
  match examples with
  | [] => None
  | example :: rest =>
      if value_eq v example
      then Some (if allow_null then ReturnsNone else Error "null")
      else null_check allow_null v rest
  end.

(** [ArrowValidator.validate] *)
Definition ArrowValidator_validate (self : ArrowValidator) (v : value)
    (allow_coerce : bool) : validated value :=
  match null_check (arrow_allow_null self) v null_values with
  | Some r => r
  | None =>
      if negb (value_isinstance v CArrow) then
        if allow_coerce
           && value_isinstance_any v [Cstr; Cint; Cfloat; Cdate; Cdatetime]
        then
          match
            match format_str self with
            | Some f =>
                if negb (bool_decide (f = "")) then arrow_get_format v f
                else arrow_get_value v
            | None => arrow_get_value v
            end
          with
          | Ok result => Returns (VArrow result)
          | Raise e =>
              if isinstance e ParserError then Error "parse" else Raises e
          end
        else Error "parse"
      else Returns v
  end.

(** [IPAddressValidator.validate] *)
Definition IPAddressValidator_validate (self : IPAddressValidator)
    (v : value) (allow_coerce : bool) : validated value :=
  match null_check (ip_allow_null self) v null_values with
  | Some r => r
  | None =>
      if negb (value_isinstance v CIPAddress) then
        if allow_coerce && value_isinstance_any v [Cstr; Cint]
        then
          match
            match ip_version self with
            | Some n =>
                if negb (n =? 0)%Z then IPAddress_version v n
                else IPAddress_value v
            | None => IPAddress_value v
            end
          with
          | Ok result => Returns (VIPAddress result)
          | Raise e =>
              if isinstance e AddrFormatError then Error "parse" else Raises e
          end
        else Error "parse"
      else Returns v
  end.

(** [MACValidator.validate] *)
Definition MACValidator_validate (self : MACValidator) (v : value)
    (allow_coerce : bool) : validated value :=
  match null_check (mac_allow_null self) v null_values with
  | Some r => r
  | None =>
      if negb (value_isinstance v CEUI) then
        if allow_coerce && value_isinstance_any v [Cstr; Cint]
        then
          match
            match mac_version self with
            | Some n =>
                if negb (n =? 0)%Z then EUI_version v n
                else EUI_value v
            | None => EUI_value v
            end
          with
          | Ok result => Returns (VEUI result)
          | Raise e =>
              if isinstance e AddrFormatError then Error "parse" else Raises e
          end
        else Error "parse"
      else Returns v
  end.

End validate.

(** ** The version of the package (setup.py) *)

(** [s.startswith(prefix)] *)
Fixpoint startswith (prefix s : string) : bool :=
  match prefix, s with
  | EmptyString, _ => true
  | String a prefix', String b s' => Ascii.eqb a b && startswith prefix' s'
  | String _ _, EmptyString => false
  end.

Fixpoint lstrip_chars (chars s : string) : string :=
  match s with
  | EmptyString => EmptyString
  | String c s' => if contains c chars then lstrip_chars chars s' else s
  end.

Fixpoint rstrip_chars (chars s : string) : string :=
  match s with
  | EmptyString => EmptyString
  | String c s' =>
      match rstrip_chars chars s' with
      | EmptyString =>
          if contains c chars then EmptyString else String c EmptyString
      | r => String c r
      end
  end.

(** [s.strip(chars)] *)
Definition strip_chars (chars s : string) : string :=
  rstrip_chars chars (lstrip_chars chars s).

(** The argument of the second [strip]: a space and the two quotes. *)
Definition quotes : string :=
  String " " (String "'" (String (ascii_of_nat 34) EmptyString)).

(** How the search for the version ends: [version] is bound, or the
    subscript [[1]] raises [IndexError]. *)
Inductive version_outcome : Set :=
  | Version (version : string)
  | IndexError.

(** The [for line in f] loop of setup.py, with its [else] branch, over the
    lines of [backend/__init__.py]. *)
Fixpoint package_version (lines : list string) : version_outcome :=
  match lines with
  | [] => Version "0.0.1"
  | line :: rest =>
      if startswith "__version__" line
      then match split "=" (strip line) with
           | _ :: field :: _ => Version (strip_chars quotes field)
           | _ => IndexError
           end
      else package_version rest
  end.

(** ** A small instance of the libraries

    The examples below run the parser on concrete lines, so they need the
    libraries to compute.  This instance stands in for them: IPv4 dotted
    quads, six-octet hardware addresses written with colons or hyphens, and
    epoch seconds written in base ten.  It renders an address the way netaddr
    does by default (upper-case octets joined by hyphens for a hardware
    address) and a time as ISO 8601 in UTC. *)
Module SimpleLibs.

Definition digit_val (c : ascii) : option N :=
  let n := N_of_ascii c in
  if (48 <=? n)%N && (n <=? 57)%N then Some (n - 48)%N else None.

Definition hex_val (c : ascii) : option N :=
  let n := N_of_ascii c in
  if (48 <=? n)%N && (n <=? 57)%N then Some (n - 48)%N
  else if (65 <=? n)%N && (n <=? 70)%N then Some (n - 55)%N
  else if (97 <=? n)%N && (n <=? 102)%N then Some (n - 87)%N
  else None.

Fixpoint number_from (base : N) (val : ascii -> option N) (s : string)
    (acc : N) : option N :=
  match s with
  | EmptyString => Some acc
  | String c s' =>
      match val c with
      | Some d => number_from base val s' (acc * base + d)%N
      | None => None
      end
  end.

(** A non-empty string of digits of the base. *)
Definition number (base : N) (val : ascii -> option N) (s : string)
  : option N :=
  match s with
  | EmptyString => None
  | _ => number_from base val s 0%N
  end.

Definition octet (base : N) (val : ascii -> option N) (s : string)
  : option N :=
  match number base val s with
  | Some n => if (n <=? 255)%N then Some n else None
  | None => None
  end.

Fixpoint octets_value (l : list N) (acc : N) : N :=
  match l with
  | [] => acc
  | o :: l' => octets_value l' (acc * 256 + o)%N
  end.

Definition addr_format_error (s : string) : exn :=
  mk_exn AddrFormatError ["failed to detect a valid address from " +:+ s].

Definition parse_ipv4 (s : string) : result N :=
  match mapM (octet 10 digit_val) (split "." s) with
  | Some ([_; _; _; _] as l) => Ok (octets_value l 0%N)
  | _ => Raise (addr_format_error s)
  end.

Definition parse_eui48 (s : string) : result N :=
  let fields := if contains ":" s then split ":" s else split "-" s in
  match mapM (octet 16 hex_val) fields with
  | Some ([_; _; _; _; _; _] as l) => Ok (octets_value l 0%N)
  | _ => Raise (addr_format_error s)
  end.

Definition parse_epoch (s : string) : result Z :=
  match number 10 digit_val s with
  | Some n => Ok (Z.of_N n)
  | None => Raise (mk_exn ParserError ["Could not match input to any format"])
  end.

Definition byte_at (n : N) (i : N) : N := ((n / 256 ^ i) mod 256)%N.

Definition show_ipv4 (a : N) : string :=
  join "." (map (fun i => pretty (byte_at a i)) [3; 2; 1; 0]%N).

Definition hex_digit (d : N) : ascii :=
  if (d <? 10)%N then ascii_of_N (48 + d) else ascii_of_N (55 + d).

Definition hex_octet (o : N) : string :=
  String (hex_digit (o / 16)%N) (String (hex_digit (o mod 16)%N) EmptyString).

Definition show_eui48 (a : N) : string :=
  join "-" (map (fun i => hex_octet (byte_at a i)) [5; 4; 3; 2; 1; 0]%N).

(** Decimal with leading zeros up to [width] digits. *)
Definition padded (width : nat) (n : Z) : string :=
  let s := pretty (Z.to_N n) in
  String.string_of_list_ascii (replicate (width - String.length s) "0"%char)
  +:+ s.

(** The proleptic Gregorian date of a day number counted from 1970-01-01. *)
Definition civil_from_days (days : Z) : Z * Z * Z :=
  let z := (days + 719468)%Z in
  let era := (z / 146097)%Z in
  let doe := (z - era * 146097)%Z in
  let yoe := ((doe - doe / 1460 + doe / 36524 - doe / 146096) / 365)%Z in
  let doy := (doe - (365 * yoe + yoe / 4 - yoe / 100))%Z in
  let mp := ((5 * doy + 2) / 153)%Z in
  let d := (doy - (153 * mp + 2) / 5 + 1)%Z in
  let m := if (mp <? 10)%Z then (mp + 3)%Z else (mp - 9)%Z in
  let y := (yoe + era * 400 + (if (m <=? 2)%Z then 1 else 0))%Z in
  (y, m, d).

Definition show_epoch (t : Z) : string :=
  let '(y, m, d) := civil_from_days (t / 86400) in
  let s := (t mod 86400)%Z in
  padded 4 y +:+ "-" +:+ padded 2 m +:+ "-" +:+ padded 2 d +:+ "T"
  +:+ padded 2 (s / 3600) +:+ ":" +:+ padded 2 (s mod 3600 / 60) +:+ ":"
  +:+ padded 2 (s mod 60) +:+ "+00:00".

#[export] Instance libs : Libs := {|
  ip := N;
  eui := N;
  arrow := Z;
  IPAddress := parse_ipv4;
  EUI := parse_eui48;
  arrow_get := parse_epoch;
  str_ip := show_ipv4;
  str_eui := show_eui48;
  str_arrow := show_epoch
|}.

(** A file system with one lease file, at the first default path. *)
Definition lease_file : list string :=
  ["1535916991 aa:bb:cc:dd:ee:ff 172.16.1.60 android-2bfa2b2619add6eb 01:aa:bb:cc:dd:ee:ff" +:+ "
";
   "1535966088 aa:bb:cc:dd:ee:ff 1.1.1.1 * *" +:+ "
"].

Definition no_such_file (path : string) : exn :=
  mk_exn FileNotFoundError ["No such file or directory: " +:+ path].

Definition fs_default (path : string) : open_outcome :=
  if bool_decide (path = "/var/lib/misc/dnsmasq.leases")
  then Opened (Ok lease_file)
  else OpenRaises (no_such_file path).

(** A file system without any lease file. *)
Definition fs_empty (path : string) : open_outcome :=
  OpenRaises (no_such_file path).

End SimpleLibs.

(** The same for the calls of the validators: an [int] is the number of an
    address or of a second, the only versions are 4 and 48, the only format
    is [X], and an object of the libraries is equal to no [None] and to no
    [str]. *)
Module SimpleValues.
Import SimpleLibs.

Definition number_in_range (bits : Z) (n : Z) : result N :=
  if (0 <=? n)%Z && (n <? 2 ^ bits)%Z then Ok (Z.to_N n)
  else Raise (addr_format_error (pretty n)).

Definition ip_of_value (v : @value libs) : result N :=
  match v with
  | VStr s => parse_ipv4 s
  | VInt n => number_in_range 32 n
  | VBool b => Ok (if b then 1 else 0)%N
  | _ => Raise (addr_format_error "")
  end.

Definition ip_of_value_version (v : @value libs) (version : Z) : result N :=
  if (version =? 4)%Z then ip_of_value v
  else Raise (addr_format_error "")%string.

Definition eui_of_value (v : @value libs) : result N :=
  match v with
  | VStr s => parse_eui48 s
  | VInt n => number_in_range 48 n
  | VBool b => Ok (if b then 1 else 0)%N
  | _ => Raise (addr_format_error "")
  end.

Definition eui_of_value_version (v : @value libs) (version : Z) : result N :=
  if (version =? 48)%Z then eui_of_value v
  else Raise (addr_format_error "")%string.

Definition epoch_of_value (v : @value libs) : result Z :=
  match v with
  | VStr s => parse_epoch s
  | VInt n => Ok n
  | VBool b => Ok (if b then 1 else 0)%Z
  | _ => Raise (mk_exn TypeError ["Can't parse single argument"])
  end.

Definition epoch_of_value_format (v : @value libs) (fmt : string)
  : result Z :=
  if bool_decide (fmt = "X") then epoch_of_value v
  else Raise (mk_exn ParserError ["Could not match input to any format"]).

#[export] Instance values : ValueLibs := {|
  arrow_get_value := epoch_of_value;
  arrow_get_format := epoch_of_value_format;
  IPAddress_value := ip_of_value;
  IPAddress_version := ip_of_value_version;
  EUI_value := eui_of_value;
  EUI_version := eui_of_value_version;
  arrow_eq := fun _ _ => false;
  ip_eq := fun _ _ => false;
  eui_eq := fun _ _ => false
|}.

End SimpleValues.

(** * Vocabulary of the properties *)

(** A computation is framed when its outcome does not depend on what was
    written before it runs and it only appends to it. *)
Definition framed {A} (m : IO A) : Prop :=
  forall out, m out = (fst (m []), out ++ snd (m [])).




(** [hostname] and [client_id] after the [*] substitution. *)
Definition unstar (token : string) : string :=
  if bool_decide (token = "*") then "" else token.

(** A candidate fails with an I/O error when [open] or [readlines] raises an
    [IOError] (a missing file, a directory, a permission or a device
    error). *)
Definition io_failure (o : open_outcome) : Prop :=
  exists e, (o = OpenRaises e \/ o = Opened (Raise e))
            /\ isinstance e IOError = true.

(** The exception raised once the candidates are exhausted. *)
Definition source_unavailable : exn := mk_exn LeaseParseError [].

(** What one call of [parse_lease] writes to standard output. *)
Definition parse_lease_output (lease_line : py_value) : list output :=
  match lease_line with
  | PyStr s => if bool_decide (s = "") then []
               else [Processing s (split " " s)]
  | _ => []
  end.

(** A string of white space only (the empty string included). *)
Fixpoint all_space (s : string) : bool :=
  match s with
  | EmptyString => true
  | String c s' => isspace c && all_space s'
  end.

(** A builtin value that is equal to none of the [null_values]. *)
Definition plain `{Libs} (v : value) : bool :=
  match v with
  | VBool _ | VInt _ | VFloat _ | VBytes _ | VDate _ | VDatetime _ => true
  | VStr s => negb (bool_decide (s ∈ [""; "null"; "none"]))
  | VNone | VArrow _ | VIPAddress _ | VEUI _ => false
  end.

(** What a validator makes of a library call inside its [try] block, whose
    [except] clause names the class [caught]. *)
Definition coerced `{Libs} {A} (wrap : A -> value) (caught : exn_class)
    (r : result A) : validated value :=
  match r with
  | Ok a => Returns (wrap a)
  | Raise e => if isinstance e caught then Error "parse" else Raises e
  end.

(** Every character of [s] is one of [chars]. *)
Fixpoint all_in (chars s : string) : bool :=
  match s with
  | EmptyString => true
  | String c s' => contains c chars && all_in chars s'
  end.

(** [open] or [readlines] raises [e] at a candidate. *)
Definition raises_at (o : open_outcome) (e : exn) : Prop :=
  o = OpenRaises e \/ o = Opened (Raise e).

(** * Properties *)

(** ** The output monad *)

Lemma framed_ret {A} (a : A) : framed (ret a).
Proof. intros out. unfold ret. simpl. by rewrite app_nil_r. Qed.

Lemma framed_raise {A} (e : exn) : framed (@raise A e).
Proof. intros out. unfold raise. simpl. by rewrite app_nil_r. Qed.

Lemma framed_lift {A} (r : result A) : framed (lift r).
Proof. intros out. unfold lift. simpl. by rewrite app_nil_r. Qed.

Lemma framed_print (o : output) : framed (print o).
Proof. intros out. reflexivity. Qed.

Lemma framed_bind {A B} (m : IO A) (k : A -> IO B) :
  framed m -> (forall a, framed (k a)) -> framed (bind m k).
Proof.
  intros Hm Hk out. unfold bind. rewrite (Hm out).
  destruct (m []) as [[a|e] o]; simpl.
  - rewrite (Hk a (out ++ o)), (Hk a o). simpl. by rewrite app_assoc.
  - reflexivity.
Qed.

Lemma framed_try_except {A} (m : IO A) cs (h : IO A) :
  framed m -> framed h -> framed (try_except m cs h).
Proof.
  intros Hm Hh out. unfold try_except. rewrite (Hm out).
  destruct (m []) as [[a|e] o]; simpl; [reflexivity|].
  destruct (caught_by cs e); [|reflexivity].
  rewrite (Hh (out ++ o)), (Hh o). simpl. by rewrite app_assoc.
Qed.

Create HintDb framed.
#[global] Hint Resolve framed_ret framed_raise framed_lift framed_print
  framed_bind framed_try_except : framed.

Lemma framed_fst {A} (m : IO A) out out' :
  framed m -> fst (m out) = fst (m out').
Proof. intros Hm. by rewrite (Hm out), (Hm out'). Qed.

(** ** [strip], [split] and [join] *)

Lemma split_not_nil sep s : split sep s <> [].
Proof.
  destruct s as [|c s]; simpl; [done|].
  destruct (Ascii.eqb c sep); [done|]. by destruct (split sep s).
Qed.

Lemma split_no_sep sep t : contains sep t = false -> split sep t = [t].
Proof.
  induction t as [|c t IH]; simpl; [done|].
  intros [Hc Ht]%orb_false_iff. rewrite Hc, (IH Ht). done.
Qed.

Lemma split_app_sep sep t s :
  contains sep t = false ->
  split sep (t +:+ String sep s) = t :: split sep s.
Proof.
  induction t as [|c t IH]; simpl.
  - intros _. by rewrite Ascii.eqb_refl.
  - intros [Hc Ht]%orb_false_iff. rewrite Hc, (IH Ht). done.
Qed.

(** Splitting undoes joining, when no field holds the separator. *)
Lemma split_join sep l :
  l <> [] -> Forall (fun t => contains sep t = false) l ->
  split sep (join (String sep "") l) = l.
Proof.
  induction l as [|t l IH]; [done|]. intros _ Hl.
  apply Forall_cons in Hl as [Ht Hl].
  destruct l as [|t' l].
  - by apply split_no_sep.
  - change (join (String sep "") (t :: t' :: l))
      with (t +:+ String sep (join (String sep "") (t' :: l))).
    rewrite split_app_sep by done. f_equal. by apply IH.
Qed.

(** Joining undoes splitting. *)
Lemma join_split sep s : join (String sep "") (split sep s) = s.
Proof.
  induction s as [|c s IH]; simpl; [done|].
  destruct (Ascii.eqb_spec c sep) as [->|Hne].
  - pose proof (split_not_nil sep s) as Hnil.
    simpl. destruct (split sep s) as [|t ts]; [done|].
    simpl in *. by rewrite IH.
  - pose proof (split_not_nil sep s) as Hnil.
    destruct (split sep s) as [|t ts]; [done|].
    destruct ts as [|t' ts]; simpl in *; by rewrite <- IH.
Qed.

(** Trailing white space, such as the newline that [readlines()] leaves at
    the end of a line, does not change what [strip] gives. *)
Lemma rstrip_app_space s c :
  isspace c = true -> rstrip (s +:+ String c "") = rstrip s.
Proof.
  intros Hc. induction s as [|c' s IH]; simpl.
  - by rewrite Hc.
  - by rewrite IH.
Qed.

Lemma lstrip_app_space s c :
  isspace c = true ->
  (lstrip (s +:+ String c "") = "" /\ lstrip s = "")
  \/ lstrip (s +:+ String c "") = lstrip s +:+ String c "".
Proof.
  intros Hc. induction s as [|c' s IH]; simpl.
  - left. by rewrite Hc.
  - destruct (isspace c'); [exact IH|by right].
Qed.

Lemma strip_trailing_space s c :
  isspace c = true -> strip (s +:+ String c "") = strip s.
Proof.
  intros Hc. unfold strip.
  destruct (lstrip_app_space s c Hc) as [[H1 H2]|H1]; rewrite H1.
  - by rewrite H2.
  - by apply rstrip_app_space.
Qed.

(** A string that does not end with white space is its own [rstrip]. *)
Lemma rstrip_last_not_space s c :
  isspace c = false -> rstrip (s +:+ String c "") = s +:+ String c "".
Proof.
  intros Hc. induction s as [|c' s IH]; simpl.
  - by rewrite Hc.
  - rewrite IH. by destruct s.
Qed.

(** Five fields without a space, joined by single spaces, are the five
    fields of the joined line. *)
Lemma split_five_fields (e m i h c : string) :
  Forall (fun t => contains " " t = false) [e; m; i; h; c] ->
  split " " (join " " [e; m; i; h; c]) = [e; m; i; h; c].
Proof. intros Hl. by apply split_join. Qed.

Section parse_lease_facts.
Context `{Libs}.

Lemma framed_parse_lease_str line : framed (parse_lease_str line).
Proof.
  unfold parse_lease_str.
  apply framed_bind; [auto with framed|]. intros _.
  apply framed_bind; [auto with framed|]. intros [[[[e m] i] h] c].
  apply framed_bind.
  { apply framed_try_except; [|auto with framed].
    apply framed_bind; [auto with framed|]. intros ?.
    apply framed_bind; auto with framed. }
  intros ?. apply framed_bind; auto with framed.
Qed.

Lemma framed_parse_lease v : framed (parse_lease v).
Proof.
  unfold parse_lease.
  destruct (negb (truthy v) || negb (is_str v)); [auto with framed|].
  destruct v; auto using framed_parse_lease_str with framed.
Qed.

Lemma parse_lease_PyStr line :
  line <> "" -> parse_lease (PyStr line) = parse_lease_str line.
Proof.
  intros Hne. unfold parse_lease. simpl.
  rewrite bool_decide_eq_false_2 by done. reflexivity.
Qed.

Lemma parse_lease_not_a_string v out :
  truthy v = false \/ is_str v = false ->
  parse_lease v out = (Raise must_provide_string, out).
Proof.
  intros Hv. unfold parse_lease.
  destruct (negb (truthy v) || negb (is_str v)) eqn:Hc; [reflexivity|].
  apply orb_false_iff in Hc as [Ht Hs].
  apply negb_false_iff in Ht, Hs. destruct Hv; congruence.
Qed.

Lemma five_fields_not_empty line l :
  split " " (strip line) = l -> length l <> 1%nat -> line <> "".
Proof. intros <- Hl ->. by apply Hl. Qed.

(** The line is printed, then the fields are unpacked: an unpacking error
    is what [parse_lease] raises, whatever the libraries would do. *)
Lemma parse_lease_str_unpack_error line e out :
  unpack5 (split " " (strip line)) = Raise e ->
  parse_lease_str line out
  = (Raise e, out ++ [Processing line (split " " line)]).
Proof.
  intros He. unfold parse_lease_str, bind, print, lift. by rewrite He.
Qed.

(** With five fields, what remains is the two [try] blocks. *)
Lemma parse_lease_str_five line e m i h c out :
  split " " (strip line) = [e; m; i; h; c] ->
  parse_lease_str line out
  = let out' := out ++ [Processing line (split " " line)] in
    match IPAddress i with
    | Ok ip =>
        match EUI m with
        | Ok mac =>
            match arrow_get e with
            | Ok t =>
                (Ok {| ip_address := ip; mac_address := mac;
                       lease_expiry_time := t;
                       client_id := unstar c; hostname := unstar h |}, out')
            | Raise x =>
                if caught_by [ValueError; ParserError] x
                then (Raise expiry_error, out') else (Raise x, out')
            end
        | Raise x =>
            if caught_by [AttributeError; AddrFormatError] x
            then (Raise (address_error line), out') else (Raise x, out')
        end
    | Raise x =>
        if caught_by [AttributeError; AddrFormatError] x
        then (Raise (address_error line), out') else (Raise x, out')
    end.
Proof.
  intros Hs. unfold parse_lease_str, bind, print, lift, try_except, ret, raise.
  rewrite Hs. cbn [unpack5].
  destruct (IPAddress i) as [ip|x]; [|by destruct (caught_by _ x)].
  destruct (EUI m) as [mac|x]; [|by destruct (caught_by _ x)].
  destruct (arrow_get e) as [t|x]; [reflexivity|by destruct (caught_by _ x)].
Qed.

Lemma unpack5_length l :
  length l <> 5%nat -> exists msg, unpack5 l = Raise (mk_exn ValueError [msg]).
Proof.
  intros Hl. unfold unpack5.
  destruct l as [|a [|b [|c [|d [|e [|f l]]]]]]; simpl in *; eauto; lia.
Qed.


End parse_lease_facts.

(** C1.  A line that, once stripped, splits on single spaces into exactly
    five tokens whose IP, MAC and expiry tokens the libraries accept is
    parsed into a [LeaseRecord] holding the three parsed values, and the
    hostname and client id tokens with the token [*] replaced by the empty
    string. *)
Theorem parse_lease_well_formed `{Libs} (line e m i h c : string)
    (a : ip) (mac : eui) (t : arrow) (out : list output) :
  split " " (strip line) = [e; m; i; h; c] ->
  IPAddress i = Ok a ->
  EUI m = Ok mac ->
  arrow_get e = Ok t ->
  fst (parse_lease (PyStr line) out)
  = Ok {| ip_address := a;
          mac_address := mac;
          lease_expiry_time := t;
          client_id := if bool_decide (c = "*") then "" else c;
          hostname := if bool_decide (h = "*") then "" else h |}.
Proof.
  intros Hs Hi Hm He.
  rewrite parse_lease_PyStr
    by (eapply five_fields_not_empty; [exact Hs|simpl; lia]).
  rewrite (parse_lease_str_five _ _ _ _ _ _ _ Hs), Hi, Hm, He.
  reflexivity.
Qed.

(** The first literal scenario of the specification, on the small
    libraries. *)
Lemma parse_lease_well_formed_witness :
  fst (parse_lease
         (PyStr "1535916991 aa:bb:cc:dd:ee:ff 172.16.1.60 android-2bfa2b2619add6eb 01:aa:bb:cc:dd:ee:ff")
         [])
  = Ok {| ip_address := 2886730044%N : @ip SimpleLibs.libs;
          mac_address := 187723572702975%N : @eui SimpleLibs.libs;
          lease_expiry_time := 1535916991%Z : @arrow SimpleLibs.libs;
          client_id := "01:aa:bb:cc:dd:ee:ff";
          hostname := "android-2bfa2b2619add6eb" |}.
Proof.
  apply (parse_lease_well_formed (H := SimpleLibs.libs) _
           "1535916991" "aa:bb:cc:dd:ee:ff" "172.16.1.60"
           "android-2bfa2b2619add6eb" "01:aa:bb:cc:dd:ee:ff");
    reflexivity.
Defined.

(** The second literal scenario: both [*] tokens become empty strings. *)
Example parse_lease_stars :
  fst (parse_lease (PyStr "1535966088 aa:bb:cc:dd:ee:ff 1.1.1.1 * *") [])
  = Ok {| ip_address := 16843009%N : @ip SimpleLibs.libs;
          mac_address := 187723572702975%N : @eui SimpleLibs.libs;
          lease_expiry_time := 1535966088%Z : @arrow SimpleLibs.libs;
          client_id := "";
          hostname := "" |}.
Proof. reflexivity. Qed.

(** A non-empty line with a field count other than five ends in the
    [ValueError] of the tuple unpacking, which no [except] clause of
    [parse_lease] wraps. *)
Lemma parse_lease_wrong_field_count `{Libs} (line : string) out :
  line <> "" ->
  length (split " " (strip line)) <> 5%nat ->
  exists msg,
    fst (parse_lease (PyStr line) out) = Raise (mk_exn ValueError [msg]).
Proof.
  intros Hne Hl. destruct (unpack5_length _ Hl) as [msg Hmsg].
  exists msg. rewrite parse_lease_PyStr by done.
  by rewrite (parse_lease_str_unpack_error _ _ _ Hmsg).
Qed.

(** C2 (the code departs from the claim).  On a four-token line
    [parse_lease] raises the builtin [ValueError] of the tuple unpacking:
    it is not a [LeaseParseError], and it has the class of the error raised
    for an empty or non-string argument. *)
Theorem parse_lease_four_fields_ValueError `{Libs} (out : list output) :
  let line := "1535916991 aa:bb:cc:dd:ee:ff 172.16.1.60 android-2bfa2b2619add6eb" in
  let e := mk_exn ValueError
             ["not enough values to unpack (expected 5, got 4)"] in
  line <> ""
  /\ length (split " " (strip line)) = 4%nat
  /\ fst (parse_lease (PyStr line) out) = Raise e
  /\ isinstance e LeaseParseError = false
  /\ exn_cls e = exn_cls must_provide_string.
Proof.
  intros line e. split; [done|]. split; [reflexivity|].
  split; [|done].
  rewrite parse_lease_PyStr by done.
  by rewrite (parse_lease_str_unpack_error line e).
Qed.

(** C3.  The empty string, [None] and every value that is not a [str] are
    refused with [ValueError('Must provide a string input')] before
    anything is printed or parsed; this exception is not a
    [LeaseParseError] and differs from both errors that [parse_lease]
    raises for a malformed address or expiry time. *)
Theorem parse_lease_invalid_argument `{Libs} (v : py_value)
    (out : list output) :
  v = PyStr "" \/ v = PyNone \/ is_str v = false ->
  parse_lease v out = (Raise must_provide_string, out)
  /\ isinstance must_provide_string LeaseParseError = false
  /\ (forall line, must_provide_string <> address_error line)
  /\ must_provide_string <> expiry_error.
Proof.
  intros Hv. split; [|done].
  apply parse_lease_not_a_string.
  destruct Hv as [->|[->|Hv]]; auto.
Qed.

Lemma parse_lease_invalid_argument_witness :
  parse_lease (H := SimpleLibs.libs) (PyInt 123) []
  = (Raise must_provide_string, []).
Proof.
  apply (parse_lease_invalid_argument (H := SimpleLibs.libs) (PyInt 123) []).
  right. right. reflexivity.
Defined.

Example parse_lease_empty_string `{Libs} :
  parse_lease (PyStr "") [] = (Raise must_provide_string, []).
Proof. reflexivity. Qed.



(** An exception of a class that the clause does not list leaves
    [parse_lease] as it is. *)
Lemma parse_lease_address_uncaught `{Libs} (line e m i h c : string) x out :
  split " " (strip line) = [e; m; i; h; c] ->
  IPAddress i = Raise x ->
  caught_by [AttributeError; AddrFormatError] x = false ->
  fst (parse_lease (PyStr line) out) = Raise x.
Proof.
  intros Hs Hx Hc.
  rewrite parse_lease_PyStr
    by (eapply five_fields_not_empty; [exact Hs|simpl; lia]).
  rewrite (parse_lease_str_five _ _ _ _ _ _ _ Hs), Hx.
  by rewrite Hc.
Qed.





(** ** [get_lease_file] *)

Section get_lease_file_facts.
Variable fs : filesystem.

Lemma framed_read_file file : framed (read_file fs file).
Proof.
  unfold read_file. apply framed_bind; [auto with framed|]. intros _.
  destruct (fs file); [auto with framed|].
  apply framed_bind; [auto with framed|]. intros _.
  apply framed_bind; auto with framed.
Qed.

Lemma framed_try_files files : framed (try_files fs files).
Proof.
  induction files as [|file rest IH]; simpl.
  - apply framed_bind; auto with framed.
  - apply framed_try_except; [apply framed_read_file|].
    apply framed_bind; auto with framed.
Qed.

(** One iteration of the loop, by what [open] and [readlines] do. *)
Lemma try_files_cons file rest out :
  try_files fs (file :: rest) out
  = match fs file with
    | OpenRaises e =>
        if isinstance e IOError
        then try_files fs rest (out ++ [PreOpen; InsideIOError])
        else (Raise e, out ++ [PreOpen])
    | Opened (Ok lines) => (Ok lines, out ++ [PreOpen; InsideOpen])
    | Opened (Raise e) =>
        if isinstance e IOError
        then try_files fs rest (out ++ [PreOpen; InsideOpen; InsideIOError])
        else (Raise e, out ++ [PreOpen; InsideOpen])
    end.
Proof.
  cbn [try_files].
  unfold try_except, read_file, bind, print, lift, ret, raise, caught_by.
  cbn [existsb]. destruct (fs file) as [e|[lines|e]].
  - rewrite orb_false_r. destruct (isinstance e IOError); [|done].
    by rewrite <- app_assoc.
  - by rewrite <- app_assoc.
  - rewrite orb_false_r, <- !app_assoc. reflexivity.
Qed.

(** A readable candidate ends the loop with its lines. *)
Lemma try_files_readable file rest lines out :
  fs file = Opened (Ok lines) ->
  try_files fs (file :: rest) out = (Ok lines, out ++ [PreOpen; InsideOpen]).
Proof. intros Hf. by rewrite try_files_cons, Hf. Qed.

(** A candidate that fails with an I/O error is passed over: the loop goes
    on with the remaining candidates. *)
Lemma try_files_skip file rest out :
  io_failure (fs file) ->
  exists printed,
    try_files fs (file :: rest) out = try_files fs rest (out ++ printed)
    /\ (printed = [PreOpen; InsideIOError]
        \/ printed = [PreOpen; InsideOpen; InsideIOError]).
Proof.
  intros (e & [Hf|Hf] & He); rewrite try_files_cons, Hf, He; eauto.
Qed.

Lemma try_files_skip_fst file rest out :
  io_failure (fs file) ->
  fst (try_files fs (file :: rest) out) = fst (try_files fs rest out).
Proof.
  intros Hf. destruct (try_files_skip file rest out Hf) as (p & -> & _).
  apply framed_fst, framed_try_files.
Qed.

Lemma try_files_first_readable pre file post lines out :
  Forall (fun f => io_failure (fs f)) pre ->
  fs file = Opened (Ok lines) ->
  fst (try_files fs (pre ++ file :: post) out) = Ok lines.
Proof.
  intros Hpre Hf. revert out.
  induction Hpre as [|f pre Hfail _ IH]; intros out.
  - simpl app. by rewrite (try_files_readable _ _ lines).
  - rewrite <- app_comm_cons, try_files_skip_fst by done. apply IH.
Qed.

Lemma try_files_all_fail files out :
  Forall (fun f => io_failure (fs f)) files ->
  fst (try_files fs files out) = Raise source_unavailable.
Proof.
  intros Hall. revert out.
  induction Hall as [|f files Hfail _ IH]; intros out; [reflexivity|].
  rewrite try_files_skip_fst by done. apply IH.
Qed.

(** Whatever is returned is the whole [readlines()] result of one of the
    candidates. *)
Lemma try_files_ok_inv files lines out :
  fst (try_files fs files out) = Ok lines ->
  exists file, file ∈ files /\ fs file = Opened (Ok lines).
Proof.
  revert out. induction files as [|file rest IH]; intros out; [done|].
  rewrite try_files_cons.
  destruct (fs file) as [e|[ls|e]] eqn:Hf.
  - destruct (isinstance e IOError); [|done].
    intros Hok. destruct (IH _ Hok) as (f & Hin & Hfs).
    exists f. split; [apply elem_of_cons; by right|done].
  - intros [= ->]. exists file. split; [apply elem_of_cons; by left|done].
  - destruct (isinstance e IOError); [|done].
    intros Hok. destruct (IH _ Hok) as (f & Hin & Hfs).
    exists f. split; [apply elem_of_cons; by right|done].
Qed.

(** An exception that is not an [IOError] ends the loop at once. *)
Lemma try_files_uncaught file rest e out :
  fs file = OpenRaises e \/ fs file = Opened (Raise e) ->
  isinstance e IOError = false ->
  fst (try_files fs (file :: rest) out) = Raise e.
Proof. intros [Hf|Hf] He; by rewrite try_files_cons, Hf, He. Qed.

End get_lease_file_facts.

(** The loop only looks at the candidates. *)
Lemma try_files_ext (fs fs' : filesystem) files out :
  (forall f, f ∈ files -> fs f = fs' f) ->
  try_files fs files out = try_files fs' files out.
Proof.
  revert out. induction files as [|file rest IH]; intros out Hagree;
    [reflexivity|].
  rewrite !try_files_cons.
  rewrite <- (Hagree file) by (apply elem_of_cons; by left).
  assert (Hrest : forall o, try_files fs rest o = try_files fs' rest o).
  { intros o. apply IH. intros f Hf. apply Hagree.
    apply elem_of_cons. by right. }
  destruct (fs file) as [e|[ls|e]]; [|done|];
    by destruct (isinstance e IOError).
Qed.

Lemma files_to_try_falsy path :
  truthy path = false \/ is_str path = false ->
  files_to_try path = default_lease_files.
Proof.
  intros Hp. unfold files_to_try.
  destruct (truthy path && is_str path) eqn:Hc; [|done].
  apply andb_true_iff in Hc as [Ht Hs]. destruct Hp; congruence.
Qed.

(** C6, as stated, fails: the first candidate that opens and is read does
    not always win.  The clause is [except IOError], so when [readlines]
    raises [UnicodeDecodeError] at the supplied path, [get_lease_file] ends
    with that exception although the first default path holds a lease file
    that opens and is read. *)
Lemma get_lease_file_readable_does_not_win :
  ~ (forall (fs : filesystem) (path : py_value) (pre post : list string)
            (file : string) (lines : list string) (out : list output),
       files_to_try path = pre ++ file :: post ->
       Forall (fun f => forall ls, fs f <> Opened (Ok ls)) pre ->
       fs file = Opened (Ok lines) ->
       fst (get_lease_file fs path out) = Ok lines).
Proof.
  intros Hclaim.
  specialize (Hclaim
    (fun path =>
       if bool_decide (path = "/tmp/leases")
       then Opened (Raise (mk_exn UnicodeDecodeError ["invalid start byte"]))
       else SimpleLibs.fs_default path)
    (PyStr "/tmp/leases") ["/tmp/leases"] ["/etc/dnsmasq.d/dnsmasq.leases"]
    "/var/lib/misc/dnsmasq.leases" SimpleLibs.lease_file [] eq_refl).
  assert (Hwins : fst (get_lease_file
                         (fun path =>
                            if bool_decide (path = "/tmp/leases")
                            then Opened (Raise (mk_exn UnicodeDecodeError
                                                  ["invalid start byte"]))
                            else SimpleLibs.fs_default path)
                         (PyStr "/tmp/leases") [])
                  = Ok SimpleLibs.lease_file).
  { apply Hclaim; [|reflexivity].
    constructor; [|constructor]. intros ls. discriminate. }
  discriminate Hwins.
Qed.

(** C6, amended.  The candidates are the supplied path, when it is a
    non-empty string, followed by [/var/lib/misc/dnsmasq.leases] and
    [/etc/dnsmasq.d/dnsmasq.leases], and these two alone when no path is
    supplied.  When the candidates before one fail with an I/O error and
    that one opens and is read, [get_lease_file] returns exactly the list of
    lines that [readlines()] gave for it. *)
Theorem get_lease_file_first_readable (fs : filesystem) (path : py_value)
    (out : list output) :
  (forall p, path = PyStr p -> p <> "" ->
     files_to_try path
     = [p; "/var/lib/misc/dnsmasq.leases"; "/etc/dnsmasq.d/dnsmasq.leases"])
  /\ (path = PyNone ->
      files_to_try path
      = ["/var/lib/misc/dnsmasq.leases"; "/etc/dnsmasq.d/dnsmasq.leases"])
  /\ (forall pre file post lines,
        files_to_try path = pre ++ file :: post ->
        Forall (fun f => io_failure (fs f)) pre ->
        fs file = Opened (Ok lines) ->
        fst (get_lease_file fs path out) = Ok lines).
Proof.
  split; [|split].
  - intros p -> Hp. unfold files_to_try. simpl.
    by rewrite bool_decide_eq_false_2.
  - by intros ->.
  - intros pre file post lines Hfiles Hpre Hf.
    unfold get_lease_file. rewrite Hfiles.
    by apply try_files_first_readable.
Qed.

(** A supplied path that does not exist, with a lease file at the first
    default path. *)
Lemma get_lease_file_first_readable_witness :
  files_to_try (PyStr "/tmp/leases")
  = ["/tmp/leases"; "/var/lib/misc/dnsmasq.leases";
     "/etc/dnsmasq.d/dnsmasq.leases"]
  /\ fst (get_lease_file SimpleLibs.fs_default (PyStr "/tmp/leases") [])
     = Ok SimpleLibs.lease_file.
Proof.
  pose proof (get_lease_file_first_readable SimpleLibs.fs_default
                (PyStr "/tmp/leases") []) as (Horder & _ & Hfirst).
  split.
  - apply (Horder "/tmp/leases"); [reflexivity|discriminate].
  - apply (Hfirst ["/tmp/leases"] "/var/lib/misc/dnsmasq.leases"
             ["/etc/dnsmasq.d/dnsmasq.leases"]); [reflexivity| |reflexivity].
    constructor; [|constructor].
    exists (SimpleLibs.no_such_file "/tmp/leases").
    split; [left; reflexivity|reflexivity].
Defined.

(** C7, as stated, fails: the error raised when no candidate can be read is
    an instance of [LeaseParseError], the class of the parse errors. *)
Lemma get_lease_file_unavailable_is_parse_error :
  ~ (forall e,
       fst (get_lease_file SimpleLibs.fs_empty PyNone []) = Raise e ->
       isinstance e LeaseParseError = false).
Proof. intros Hclaim. by specialize (Hclaim source_unavailable eq_refl). Qed.

(** C7, amended.  When every candidate fails with an I/O error,
    [get_lease_file] raises a [LeaseParseError] built without a message: it
    has the class of the parse errors and differs from each of them, and
    from the argument error, by its arguments.  A candidate that fails with
    an I/O error raises nothing: [inside IOError] is printed and the loop
    goes on with the remaining candidates.  A list that is returned is
    always the whole [readlines()] result of one candidate. *)
Theorem get_lease_file_unavailable (fs : filesystem) (path : py_value)
    (out : list output) :
  (Forall (fun f => io_failure (fs f)) (files_to_try path) ->
   fst (get_lease_file fs path out) = Raise source_unavailable)
  /\ (forall file rest,
        io_failure (fs file) ->
        exists printed,
          try_files fs (file :: rest) out
          = try_files fs rest (out ++ printed)
          /\ (printed = [PreOpen; InsideIOError]
              \/ printed = [PreOpen; InsideOpen; InsideIOError]))
  /\ (forall lines,
        fst (get_lease_file fs path out) = Ok lines ->
        exists file, file ∈ files_to_try path /\ fs file = Opened (Ok lines))
  /\ isinstance source_unavailable LeaseParseError = true
  /\ (forall line, source_unavailable <> address_error line)
  /\ source_unavailable <> expiry_error
  /\ source_unavailable <> must_provide_string.
Proof.
  split; [|split; [|split; [|done]]].
  - apply try_files_all_fail.
  - intros file rest. apply try_files_skip.
  - intros lines. apply try_files_ok_inv.
Qed.

(** No lease file anywhere, as in [test_get_lease_file_raises]. *)
Lemma get_lease_file_unavailable_witness :
  fst (get_lease_file SimpleLibs.fs_empty (PyStr "/tmp/leases") [])
  = Raise source_unavailable.
Proof.
  apply (get_lease_file_unavailable SimpleLibs.fs_empty
           (PyStr "/tmp/leases") []).
  repeat constructor;
    (eexists; split; [left; reflexivity|reflexivity]).
Defined.

(** C10.  A path that is the empty string, or any other value whose truth
    value is false, leaves the two default paths as the only candidates:
    [get_lease_file] behaves as without a path, and what the file system
    holds anywhere else, at the empty path in particular, does not
    matter. *)
Theorem get_lease_file_falsy_path (fs fs' : filesystem) (path : py_value)
    (out : list output) :
  truthy path = false ->
  files_to_try path
  = ["/var/lib/misc/dnsmasq.leases"; "/etc/dnsmasq.d/dnsmasq.leases"]
  /\ get_lease_file fs path out = get_lease_file fs PyNone out
  /\ ((forall f, f ∈ default_lease_files -> fs f = fs' f) ->
      get_lease_file fs path out = get_lease_file fs' path out).
Proof.
  intros Hp.
  assert (Hfiles : files_to_try path = default_lease_files)
    by (apply files_to_try_falsy; by left).
  split; [exact Hfiles|]. unfold get_lease_file. rewrite Hfiles. split.
  - reflexivity.
  - intros Hagree. by apply try_files_ext.
Qed.

(** The empty path, on a file system where opening it would succeed. *)
Lemma get_lease_file_falsy_path_witness :
  let fs path :=
    if bool_decide (path = "") then Opened (Ok ["not a lease"])
    else SimpleLibs.fs_default path in
  files_to_try (PyStr "")
  = ["/var/lib/misc/dnsmasq.leases"; "/etc/dnsmasq.d/dnsmasq.leases"]
  /\ get_lease_file fs (PyStr "") [] = get_lease_file fs PyNone []
  /\ get_lease_file fs (PyStr "") []
     = get_lease_file SimpleLibs.fs_default (PyStr "") [].
Proof.
  intros fs.
  destruct (get_lease_file_falsy_path fs SimpleLibs.fs_default (PyStr "") []
              eq_refl) as (Hfiles & Hnone & Hext).
  split; [exact Hfiles|]. split; [exact Hnone|].
  apply Hext. intros f Hf. unfold fs.
  rewrite bool_decide_eq_false_2; [reflexivity|].
  intros ->. apply elem_of_cons in Hf as [Hf|Hf]; [discriminate|].
  apply elem_of_cons in Hf as [Hf|Hf]; [discriminate|].
  by apply elem_of_nil in Hf.
Defined.

(** ** [serialise] *)

Lemma serialise_dom `{Libs} (r : LeaseRecord) :
  dom (serialise r)
  = ({["ip_address"; "mac_address"; "lease_expiry_time"; "client_id";
       "hostname"]} : gset string).
Proof.
  unfold serialise. rewrite !dom_insert_L, dom_empty_L. set_solver.
Qed.

Lemma serialise_lookup `{Libs} (r : LeaseRecord) :
  serialise r !! "ip_address" = Some (str_ip (ip_address r))
  /\ serialise r !! "mac_address" = Some (str_eui (mac_address r))
  /\ serialise r !! "lease_expiry_time"
     = Some (str_arrow (lease_expiry_time r))
  /\ serialise r !! "client_id" = Some (client_id r)
  /\ serialise r !! "hostname" = Some (hostname r).
Proof. unfold serialise. repeat split; by simplify_map_eq. Qed.

(** C8.  For a well-formed line, serialising the parsed record gives a
    mapping from strings to strings whose keys are exactly [ip_address],
    [mac_address], [lease_expiry_time], [client_id] and [hostname]; the IP
    and MAC entries are the library's renderings of the addresses it parsed
    from the IP and MAC tokens, the expiry entry the rendering of the parsed
    time, and the two others the tokens after the [*] substitution. *)
Theorem serialise_parse_lease `{Libs} (line e m i h c : string)
    (a : ip) (mac : eui) (t : arrow) (out : list output) :
  split " " (strip line) = [e; m; i; h; c] ->
  IPAddress i = Ok a ->
  EUI m = Ok mac ->
  arrow_get e = Ok t ->
  exists r,
    fst (parse_lease (PyStr line) out) = Ok r
    /\ dom (serialise r)
       = ({["ip_address"; "mac_address"; "lease_expiry_time"; "client_id";
            "hostname"]} : gset string)
    /\ serialise r !! "ip_address" = Some (str_ip a)
    /\ serialise r !! "mac_address" = Some (str_eui mac)
    /\ serialise r !! "lease_expiry_time" = Some (str_arrow t)
    /\ serialise r !! "client_id" = Some (unstar c)
    /\ serialise r !! "hostname" = Some (unstar h).
Proof.
  intros Hs Hi Hm He. eexists. split.
  - rewrite parse_lease_PyStr
      by (eapply five_fields_not_empty; [exact Hs|simpl; lia]).
    rewrite (parse_lease_str_five _ _ _ _ _ _ _ Hs), Hi, Hm, He.
    reflexivity.
  - split; [apply serialise_dom|apply serialise_lookup].
Qed.

(** The first literal scenario: the IP entry is the token itself and the
    MAC entry the token in the library's upper-case, hyphenated form. *)
Lemma serialise_parse_lease_witness :
  exists r : @LeaseRecord SimpleLibs.libs,
    fst (parse_lease
           (PyStr "1535916991 aa:bb:cc:dd:ee:ff 172.16.1.60 android-2bfa2b2619add6eb 01:aa:bb:cc:dd:ee:ff")
           []) = Ok r
    /\ dom (serialise r)
       = ({["ip_address"; "mac_address"; "lease_expiry_time"; "client_id";
            "hostname"]} : gset string)
    /\ serialise r !! "ip_address" = Some "172.16.1.60"
    /\ serialise r !! "mac_address" = Some "AA-BB-CC-DD-EE-FF"
    /\ serialise r !! "lease_expiry_time" = Some "2018-09-02T19:36:31+00:00"
    /\ serialise r !! "client_id" = Some "01:aa:bb:cc:dd:ee:ff"
    /\ serialise r !! "hostname" = Some "android-2bfa2b2619add6eb".
Proof.
  apply (serialise_parse_lease (H := SimpleLibs.libs) _
           "1535916991" "aa:bb:cc:dd:ee:ff" "172.16.1.60"
           "android-2bfa2b2619add6eb" "01:aa:bb:cc:dd:ee:ff"
           2886730044%N 187723572702975%N 1535916991%Z []);
    reflexivity.
Defined.

(** ** Effects of [parse_lease] *)

Lemma parse_lease_str_snd `{Libs} (line : string) out :
  snd (parse_lease_str line out) = out ++ [Processing line (split " " line)].
Proof.
  unfold parse_lease_str, bind, print, lift, try_except, ret, raise.
  destruct (unpack5 _) as [[[[[e m] i] h] c]|x]; [|reflexivity].
  destruct (IPAddress i) as [a|x]; [|by destruct (caught_by _ x)].
  destruct (EUI m) as [mac|x]; [|by destruct (caught_by _ x)].
  destruct (arrow_get e) as [t|x]; [reflexivity|by destruct (caught_by _ x)].
Qed.

Lemma parse_lease_snd `{Libs} (v : py_value) out :
  snd (parse_lease v out) = out ++ parse_lease_output v.
Proof.
  destruct (decide (truthy v = true /\ is_str v = true)) as [[Ht Hs]|Hn].
  - destruct v; try done. simpl in Ht.
    apply negb_true_iff, bool_decide_eq_false in Ht.
    rewrite parse_lease_PyStr, parse_lease_str_snd by done.
    simpl. by rewrite bool_decide_eq_false_2.
  - rewrite parse_lease_not_a_string.
    + simpl. destruct v; simpl; rewrite ?app_nil_r; try done.
      case_bool_decide; [by rewrite app_nil_r|].
      exfalso. apply Hn. simpl. by rewrite bool_decide_eq_false_2.
    + destruct (truthy v); [|by left]. destruct (is_str v); [|by right].
      exfalso. by apply Hn.
Qed.

(** C9, as stated, fails: a call of [parse_lease] on a lease line leaves a
    line on standard output. *)
Lemma parse_lease_writes_output :
  ~ (forall out,
       snd (parse_lease (H := SimpleLibs.libs)
              (PyStr "1535966088 aa:bb:cc:dd:ee:ff 1.1.1.1 * *") out)
       = out).
Proof. intros Hclaim. by specialize (Hclaim []). Qed.

(** C9, amended.  The only effect of [parse_lease] is the line it prints
    for a non-empty string argument; what it returns or raises is a
    function of its argument alone, so that two calls on equal lines give
    equal records, each built from the tokens of its own call; and
    [serialise] is a function of the record, which it leaves as it is. *)
Theorem parse_lease_outcome_of_line_alone `{Libs} (v : py_value)
    (out out' : list output) :
  parse_lease v out = (fst (parse_lease v []), out ++ parse_lease_output v)
  /\ fst (parse_lease v out) = fst (parse_lease v out')
  /\ (forall r r',
        fst (parse_lease v out) = Ok r -> fst (parse_lease v out') = Ok r' ->
        r = r' /\ serialise r = serialise r').
Proof.
  assert (Hfst : forall o o', fst (parse_lease v o) = fst (parse_lease v o'))
    by (intros; apply framed_fst, framed_parse_lease).
  split; [|split].
  - rewrite <- parse_lease_snd, (Hfst [] out). by destruct (parse_lease v out).
  - apply Hfst.
  - intros r r' Hr Hr'. rewrite (Hfst out out'), Hr' in Hr.
    injection Hr as ->. done.
Qed.

(** * Further properties *)

(** ** More on [strip] and [split] *)

Lemma split_fields_no_sep sep s :
  Forall (fun t => contains sep t = false) (split sep s).
Proof.
  induction s as [|c s IH]; simpl.
  - by constructor.
  - destruct (Ascii.eqb c sep) eqn:Hc; [by constructor|].
    pose proof (split_not_nil sep s) as Hnil.
    destruct (split sep s) as [|t ts]; [done|].
    apply Forall_cons in IH as [Ht Hts].
    constructor; [|done]. simpl. by rewrite Hc, Ht.
Qed.

Lemma lstrip_all_space s : all_space s = true -> lstrip s = "".
Proof.
  induction s as [|c s IH]; simpl; [done|].
  intros [Hc Hs]%andb_true_iff. rewrite Hc. by apply IH.
Qed.

Lemma strip_all_space s : all_space s = true -> strip s = "".
Proof. intros Hs. unfold strip. by rewrite lstrip_all_space. Qed.

Lemma lstrip_leading ws s : all_space ws = true -> lstrip (ws +:+ s) = lstrip s.
Proof.
  induction ws as [|c ws IH]; simpl; [done|].
  intros [Hc Hs]%andb_true_iff. rewrite Hc. by apply IH.
Qed.

Lemma string_app_assoc (a b c : string) : (a +:+ b) +:+ c = a +:+ b +:+ c.
Proof.
  induction a as [|x a IH]; [done|].
  change (String x ((a +:+ b) +:+ c) = String x (a +:+ b +:+ c)).
  by rewrite IH.
Qed.

Lemma string_app_nil_r (a : string) : a +:+ "" = a.
Proof.
  induction a as [|x a IH]; [done|].
  change (String x (a +:+ "") = String x a). by rewrite IH.
Qed.

Lemma strip_trailing ws s : all_space ws = true -> strip (s +:+ ws) = strip s.
Proof.
  revert s. induction ws as [|c ws IH]; intros s; simpl.
  - intros _. by rewrite string_app_nil_r.
  - intros [Hc Hs]%andb_true_iff.
    change (String c ws) with (String c "" +:+ ws).
    rewrite <- string_app_assoc, IH by done.
    by apply strip_trailing_space.
Qed.

(** White space around a string does not change its [strip]. *)
Lemma strip_padding ws ws' s :
  all_space ws = true -> all_space ws' = true ->
  strip (ws +:+ s +:+ ws') = strip s.
Proof.
  intros Hws Hws'. rewrite <- string_app_assoc, strip_trailing by done.
  unfold strip. by rewrite lstrip_leading.
Qed.

Lemma fields_cases (l : list string) :
  (exists e m i h c, l = [e; m; i; h; c]) \/ length l <> 5%nat.
Proof.
  destruct l as [|e [|m [|i [|h [|c [|x l]]]]]]; simpl; try (right; lia).
  left. by exists e, m, i, h, c.
Qed.

(** ** More on [parse_lease] *)

Section parse_lease_more.
Context `{Libs}.

(** A record comes from a non-empty string only. *)
Lemma parse_lease_ok_str v out r :
  fst (parse_lease v out) = Ok r -> exists line, v = PyStr line /\ line <> "".
Proof.
  intros Hok.
  destruct (truthy v) eqn:Ht;
    [|by rewrite parse_lease_not_a_string in Hok by (by left)].
  destruct (is_str v) eqn:Hs;
    [|by rewrite parse_lease_not_a_string in Hok by (by right)].
  destruct v; try done. eexists. split; [done|].
  simpl in Ht. by apply negb_true_iff, bool_decide_eq_false in Ht.
Qed.

(** What [parse_lease_str] returns on the fields of two lines with the same
    stripped form. *)
Lemma parse_lease_str_same_strip line line' out out' r :
  strip line = strip line' ->
  fst (parse_lease_str line out) = Ok r ->
  fst (parse_lease_str line' out') = Ok r.
Proof.
  intros Hstrip.
  destruct (fields_cases (split " " (strip line)))
    as [(e & m & i & h & c & Hs)|Hl].
  - rewrite (parse_lease_str_five line e m i h c out Hs).
    rewrite Hstrip in Hs.
    rewrite (parse_lease_str_five line' e m i h c out' Hs).
    destruct (IPAddress i) as [a|x]; [|by destruct (caught_by _ x)].
    destruct (EUI m) as [mac|x]; [|by destruct (caught_by _ x)].
    destruct (arrow_get e) as [t|x]; [done|by destruct (caught_by _ x)].
  - destruct (unpack5_length _ Hl) as [msg Hmsg].
    by rewrite (parse_lease_str_unpack_error _ _ _ Hmsg).
Qed.

End parse_lease_more.

(** X1.  White space before and after a lease line, such as the newline
    that [readlines()] leaves at its end, does not change the record that
    [parse_lease] returns. *)
Theorem parse_lease_padding `{Libs} (ws ws' line : string)
    (out out' : list output) (r : LeaseRecord) :
  all_space ws = true ->
  all_space ws' = true ->
  fst (parse_lease (PyStr line) out) = Ok r ->
  fst (parse_lease (PyStr (ws +:+ line +:+ ws')) out') = Ok r.
Proof.
  intros Hws Hws' Hok.
  destruct (parse_lease_ok_str _ _ _ Hok) as (l & [= <-] & Hne).
  assert (Hne' : ws +:+ line +:+ ws' <> "").
  { destruct ws; simpl; [|done]. destruct line; simpl; done. }
  rewrite parse_lease_PyStr in Hok |- * by done.
  eapply parse_lease_str_same_strip; [|exact Hok].
  symmetry. by apply strip_padding.
Qed.

Lemma parse_lease_padding_witness :
  let nl := String (ascii_of_nat 10) "" in
  fst (parse_lease
         (PyStr (" " +:+ "1535966088 aa:bb:cc:dd:ee:ff 1.1.1.1 * *" +:+ nl))
         [])
  = Ok {| ip_address := 16843009%N : @ip SimpleLibs.libs;
          mac_address := 187723572702975%N : @eui SimpleLibs.libs;
          lease_expiry_time := 1535966088%Z : @arrow SimpleLibs.libs;
          client_id := "";
          hostname := "" |}.
Proof.
  intros nl.
  apply (parse_lease_padding (H := SimpleLibs.libs) " "
           nl "1535966088 aa:bb:cc:dd:ee:ff 1.1.1.1 * *" [] []);
    reflexivity.
Defined.

(** X2.  A non-empty line of white space only, such as a blank line of the
    lease file, is not refused as an argument: it is stripped to the empty
    string, which is a single field, and the unpacking raises
    [ValueError]. *)
Theorem parse_lease_blank_line `{Libs} (line : string) (out : list output) :
  line <> "" ->
  all_space line = true ->
  parse_lease (PyStr line) out
  = (Raise (mk_exn ValueError
              ["not enough values to unpack (expected 5, got 1)"]),
     out ++ [Processing line (split " " line)]).
Proof.
  intros Hne Hsp. rewrite parse_lease_PyStr by done.
  apply parse_lease_str_unpack_error. by rewrite strip_all_space.
Qed.

Lemma parse_lease_blank_line_witness :
  let nl := String (ascii_of_nat 10) "" in
  parse_lease (H := SimpleLibs.libs) (PyStr nl) []
  = (Raise (mk_exn ValueError
              ["not enough values to unpack (expected 5, got 1)"]),
     [Processing nl [nl]]).
Proof.
  intros nl.
  apply (parse_lease_blank_line (H := SimpleLibs.libs) nl []);
    [discriminate|reflexivity].
Defined.

(** X3.  [parse_lease] returns a record only for a non-empty string whose
    stripped form is five fields without a space joined by single spaces,
    and the record holds what the libraries built from the first three
    fields and the last two fields after the [*] substitution. *)
Theorem parse_lease_record_inv `{Libs} (v : py_value) (out : list output)
    (r : LeaseRecord) :
  fst (parse_lease v out) = Ok r ->
  exists line e m i h c,
    v = PyStr line
    /\ line <> ""
    /\ strip line = join " " [e; m; i; h; c]
    /\ Forall (fun t => contains " " t = false) [e; m; i; h; c]
    /\ arrow_get e = Ok (lease_expiry_time r)
    /\ EUI m = Ok (mac_address r)
    /\ IPAddress i = Ok (ip_address r)
    /\ hostname r = unstar h
    /\ client_id r = unstar c.
Proof.
  intros Hok.
  destruct (parse_lease_ok_str _ _ _ Hok) as (line & -> & Hne).
  rewrite parse_lease_PyStr in Hok by done.
  destruct (fields_cases (split " " (strip line)))
    as [(e & m & i & h & c & Hs)|Hl].
  - exists line, e, m, i, h, c.
    rewrite (parse_lease_str_five line e m i h c out Hs) in Hok.
    split; [done|]. split; [done|].
    split; [by rewrite <- Hs, join_split|].
    split; [rewrite <- Hs; apply split_fields_no_sep|].
    destruct (IPAddress i) as [a|x]; [|by destruct (caught_by _ x)].
    destruct (EUI m) as [mac|x]; [|by destruct (caught_by _ x)].
    destruct (arrow_get e) as [t|x]; [|by destruct (caught_by _ x)].
    simpl in Hok. by injection Hok as <-.
  - destruct (unpack5_length _ Hl) as [msg Hmsg].
    by rewrite (parse_lease_str_unpack_error _ _ _ Hmsg) in Hok.
Qed.

Lemma parse_lease_record_inv_witness :
  exists line e m i h c,
    PyStr "1535966088 aa:bb:cc:dd:ee:ff 1.1.1.1 some-hostname *" = PyStr line
    /\ line <> ""
    /\ strip line = join " " [e; m; i; h; c]
    /\ Forall (fun t => contains " " t = false) [e; m; i; h; c]
    /\ arrow_get (Libs := SimpleLibs.libs) e = Ok 1535966088%Z
    /\ EUI (Libs := SimpleLibs.libs) m = Ok 187723572702975%N
    /\ IPAddress (Libs := SimpleLibs.libs) i = Ok 16843009%N
    /\ "some-hostname" = unstar h
    /\ "" = unstar c.
Proof.
  exact (parse_lease_record_inv (H := SimpleLibs.libs)
           (PyStr "1535966088 aa:bb:cc:dd:ee:ff 1.1.1.1 some-hostname *") []
           {| ip_address := 16843009%N : @ip SimpleLibs.libs;
              mac_address := 187723572702975%N : @eui SimpleLibs.libs;
              lease_expiry_time := 1535966088%Z : @arrow SimpleLibs.libs;
              client_id := "";
              hostname := "some-hostname" |} eq_refl).
Defined.

(** X4.  The hostname and the client id of a record that [parse_lease]
    returns are never [*] and never hold a space. *)
Theorem parse_lease_record_no_star `{Libs} (v : py_value)
    (out : list output) (r : LeaseRecord) :
  fst (parse_lease v out) = Ok r ->
  hostname r <> "*" /\ client_id r <> "*"
  /\ contains " " (hostname r) = false
  /\ contains " " (client_id r) = false.
Proof.
  intros Hok.
  destruct (parse_lease_record_inv v out r Hok)
    as (line & e & m & i & h & c & _ & _ & _ & Hsp & _ & _ & _ & -> & ->).
  repeat (apply Forall_cons in Hsp as [? Hsp]).
  unfold unstar. repeat case_bool_decide; by subst.
Qed.

Lemma parse_lease_record_no_star_witness :
  let r := {| ip_address := 16843009%N : @ip SimpleLibs.libs;
              mac_address := 187723572702975%N : @eui SimpleLibs.libs;
              lease_expiry_time := 1535966088%Z : @arrow SimpleLibs.libs;
              client_id := "";
              hostname := "some-hostname" |} in
  hostname r <> "*" /\ client_id r <> "*"
  /\ contains " " (hostname r) = false
  /\ contains " " (client_id r) = false.
Proof.
  intros r.
  exact (parse_lease_record_no_star (H := SimpleLibs.libs)
           (PyStr "1535966088 aa:bb:cc:dd:ee:ff 1.1.1.1 some-hostname *") []
           r eq_refl).
Defined.

(** X5.  Every failure of [parse_lease] is one of: the [ValueError] of the
    argument check; the [ValueError] of the unpacking, on a line whose
    stripped form has not five fields; the [LeaseParseError] of the address
    check; the [LeaseParseError] of the expiry check; or an exception that a
    library raised on a field and that the [except] clause around the call
    does not list. *)
Theorem parse_lease_failures `{Libs} (v : py_value) (out : list output)
    (x : exn) :
  fst (parse_lease v out) = Raise x ->
  x = must_provide_string
  \/ (exists line msg,
        v = PyStr line /\ length (split " " (strip line)) <> 5%nat
        /\ x = mk_exn ValueError [msg])
  \/ (exists line, v = PyStr line /\ x = address_error line)
  \/ x = expiry_error
  \/ (exists field,
        (IPAddress field = Raise x \/ EUI field = Raise x)
        /\ caught_by [AttributeError; AddrFormatError] x = false)
  \/ (exists field,
        arrow_get field = Raise x
        /\ caught_by [ValueError; ParserError] x = false).
Proof.
  intros Hx.
  destruct (decide (truthy v = true /\ is_str v = true)) as [[Ht Hs]|Hn].
  - destruct v as [| | |line| |]; try done. simpl in Ht.
    apply negb_true_iff, bool_decide_eq_false in Ht.
    rewrite parse_lease_PyStr in Hx by done.
    destruct (fields_cases (split " " (strip line)))
      as [(e & m & i & h & c & Hf)|Hl].
    + rewrite (parse_lease_str_five line e m i h c out Hf) in Hx.
      destruct (IPAddress i) as [a|y] eqn:Hi.
      2:{ destruct (caught_by _ y) eqn:Hc; injection Hx as <-.
          - right. right. left. by exists line.
          - do 4 right. left. exists i. split; [by left|done]. }
      destruct (EUI m) as [b|y] eqn:Hm.
      2:{ destruct (caught_by _ y) eqn:Hc; injection Hx as <-.
          - right. right. left. by exists line.
          - do 4 right. left. exists m. split; [by right|done]. }
      destruct (arrow_get e) as [t|y] eqn:He; [done|].
      destruct (caught_by _ y) eqn:Hc; injection Hx as <-.
      * do 3 right. by left.
      * do 5 right. by exists e.
    + destruct (unpack5_length _ Hl) as [msg Hmsg].
      rewrite (parse_lease_str_unpack_error _ _ _ Hmsg) in Hx.
      injection Hx as <-. right. left. by exists line, msg.
  - rewrite parse_lease_not_a_string in Hx.
    + injection Hx as <-. by left.
    + destruct (truthy v); [|by left]. destruct (is_str v); [|by right].
      exfalso. by apply Hn.
Qed.

(** Two spaces in a row make a sixth, empty field. *)
Lemma parse_lease_failures_witness :
  let v := PyStr "1 aa:bb:cc:dd:ee:ff 1.1.1.1  host *" in
  let x := mk_exn ValueError ["too many values to unpack (expected 5)"] in
  x = must_provide_string
  \/ (exists line msg,
        v = PyStr line /\ length (split " " (strip line)) <> 5%nat
        /\ x = mk_exn ValueError [msg])
  \/ (exists line, v = PyStr line /\ x = address_error line)
  \/ x = expiry_error
  \/ (exists field,
        (IPAddress (Libs := SimpleLibs.libs) field = Raise x
         \/ EUI (Libs := SimpleLibs.libs) field = Raise x)
        /\ caught_by [AttributeError; AddrFormatError] x = false)
  \/ (exists field,
        arrow_get (Libs := SimpleLibs.libs) field = Raise x
        /\ caught_by [ValueError; ParserError] x = false).
Proof.
  intros v x.
  exact (parse_lease_failures (H := SimpleLibs.libs) v [] x eq_refl).
Defined.

(** ** More on [get_lease_file] *)

(** X6.  A path that is not a [str], a [bytes] path for instance, is not
    refused and not tried: [get_lease_file] behaves as without a path. *)
Theorem get_lease_file_not_a_str (fs : filesystem) (path : py_value)
    (out : list output) :
  is_str path = false ->
  get_lease_file fs path out = get_lease_file fs PyNone out.
Proof.
  intros Hp. unfold get_lease_file.
  by rewrite (files_to_try_falsy path) by (by right).
Qed.

Lemma get_lease_file_not_a_str_witness :
  get_lease_file SimpleLibs.fs_default (PyBytes "/tmp/leases") []
  = get_lease_file SimpleLibs.fs_default PyNone [].
Proof.
  apply (get_lease_file_not_a_str SimpleLibs.fs_default
           (PyBytes "/tmp/leases") []).
  reflexivity.
Defined.

(** X7.  An exception that is not an [IOError], raised by [open] or by
    [readlines] at a candidate that is reached, leaves [get_lease_file] at
    once: the candidates after it are not tried, whatever they hold. *)
Theorem get_lease_file_propagates (fs fs' : filesystem) (path : py_value)
    (pre post : list string) (file : string) (x : exn) (out : list output) :
  files_to_try path = pre ++ file :: post ->
  Forall (fun f => io_failure (fs f)) pre ->
  raises_at (fs file) x ->
  isinstance x IOError = false ->
  fst (get_lease_file fs path out) = Raise x
  /\ ((forall f, f ∈ pre ++ [file] -> fs' f = fs f) ->
      get_lease_file fs' path out = get_lease_file fs path out).
Proof.
  intros Hfiles Hpre Hx Hio. unfold get_lease_file. rewrite Hfiles.
  clear Hfiles. revert out.
  induction Hpre as [|f pre Hf _ IH]; intros out.
  - simpl app. split.
    + by apply try_files_uncaught.
    + intros Hagree. rewrite !try_files_cons.
      rewrite (Hagree file) by (apply elem_of_cons; by left).
      destruct Hx as [-> | ->]; by rewrite Hio.
  - rewrite <- !app_comm_cons. split.
    + rewrite try_files_skip_fst by done. apply IH.
    + intros Hagree. rewrite !try_files_cons.
      rewrite (Hagree f) by (apply elem_of_cons; by left).
      assert (Hrest : forall o,
                 try_files fs' (pre ++ file :: post) o
                 = try_files fs (pre ++ file :: post) o).
      { intros o. apply IH. intros g Hg. apply Hagree.
        apply elem_of_cons. by right. }
      destruct (fs f) as [e|[ls|e]]; [|done|];
        by destruct (isinstance e IOError).
Qed.

(** The supplied file is not text: [readlines] raises
    [UnicodeDecodeError], although a default lease file is there. *)
Lemma get_lease_file_propagates_witness :
  let x := mk_exn UnicodeDecodeError ["invalid start byte"] in
  let fs path :=
    if bool_decide (path = "/tmp/leases") then Opened (Raise x)
    else SimpleLibs.fs_default path in
  fst (get_lease_file fs (PyStr "/tmp/leases") []) = Raise x.
Proof.
  intros x fs.
  apply (get_lease_file_propagates fs fs (PyStr "/tmp/leases") []
           default_lease_files "/tmp/leases" x []);
    [reflexivity|constructor|right; reflexivity|reflexivity].
Defined.

(** X8.  Every failure of [get_lease_file] is either the
    [LeaseParseError] raised after the loop, and then every candidate
    failed with an I/O error, or an exception that is not an [IOError] and
    that [open] or [readlines] raised at one of the candidates. *)
Theorem get_lease_file_failures (fs : filesystem) (path : py_value)
    (out : list output) (x : exn) :
  fst (get_lease_file fs path out) = Raise x ->
  (x = source_unavailable
   /\ Forall (fun f => io_failure (fs f)) (files_to_try path))
  \/ (exists file,
        file ∈ files_to_try path /\ raises_at (fs file) x
        /\ isinstance x IOError = false).
Proof.
  unfold get_lease_file. generalize (files_to_try path). intros files.
  revert out. induction files as [|file rest IH]; intros out.
  - intros [= <-]. left. by split.
  - rewrite try_files_cons.
    destruct (fs file) as [e|[ls|e]] eqn:Hf; [|done|].
    + destruct (isinstance e IOError) eqn:He.
      * intros Hx. destruct (IH _ Hx) as [[-> Hall]|(g & Hg & Hr & Hn)].
        -- left. split; [done|]. constructor; [|done].
           exists e. rewrite Hf. by split; [left|].
        -- right. exists g. split; [apply elem_of_cons; by right|done].
      * intros [= <-]. right. exists file.
        split; [apply elem_of_cons; by left|]. rewrite Hf. by split; [left|].
    + destruct (isinstance e IOError) eqn:He.
      * intros Hx. destruct (IH _ Hx) as [[-> Hall]|(g & Hg & Hr & Hn)].
        -- left. split; [done|]. constructor; [|done].
           exists e. rewrite Hf. by split; [right|].
        -- right. exists g. split; [apply elem_of_cons; by right|done].
      * intros [= <-]. right. exists file.
        split; [apply elem_of_cons; by left|]. rewrite Hf. by split; [right|].
Qed.

Lemma get_lease_file_failures_witness :
  (source_unavailable = source_unavailable
   /\ Forall (fun f => io_failure (SimpleLibs.fs_empty f))
        (files_to_try PyNone))
  \/ (exists file,
        file ∈ files_to_try PyNone
        /\ raises_at (SimpleLibs.fs_empty file) source_unavailable
        /\ isinstance source_unavailable IOError = false).
Proof.
  exact (get_lease_file_failures SimpleLibs.fs_empty PyNone []
           source_unavailable eq_refl).
Defined.

(** ** [leases] *)

Lemma fst_bind {A B} (m : IO A) (k : A -> IO B) out :
  framed m -> (forall a, framed (k a)) ->
  fst (bind m k out)
  = match fst (m []) with
    | Ok a => fst (k a [])
    | Raise e => Raise e
    end.
Proof.
  intros Hm Hk. unfold bind. rewrite (Hm out).
  destruct (m []) as [[a|e] o]; simpl; [|done].
  by rewrite (Hk a (out ++ o)).
Qed.

Lemma string_app_not_empty (a b : string) : b <> "" -> a +:+ b <> "".
Proof. intros Hb. by destruct a. Qed.

Lemma static_leasefile_not_empty module_dir : static_leasefile module_dir <> "".
Proof.
  unfold static_leasefile, path_join. cbn [startswith_sep Ascii.eqb].
  simpl. destruct (_ || _); by apply string_app_not_empty.
Qed.

Section leases_facts.
Context `{Libs}.

Lemma framed_serialise_leases lines : framed (serialise_leases lines).
Proof.
  induction lines as [|l ls IH]; simpl; [auto with framed|].
  apply framed_bind; [apply framed_parse_lease|]. intros r.
  apply framed_bind; auto with framed.
Qed.

(** One step of the comprehension. *)
Lemma serialise_leases_cons lease rest out :
  fst (serialise_leases (lease :: rest) out)
  = match fst (parse_lease (PyStr lease) []) with
    | Ok record =>
        match fst (serialise_leases rest []) with
        | Ok records => Ok (serialise record :: records)
        | Raise e => Raise e
        end
    | Raise e => Raise e
    end.
Proof.
  cbn [serialise_leases].
  rewrite fst_bind; [|apply framed_parse_lease|].
  2:{ intros r. apply framed_bind; [apply framed_serialise_leases|].
      auto with framed. }
  destruct (fst (parse_lease (PyStr lease) [])); [|done].
  rewrite fst_bind; [|apply framed_serialise_leases|auto with framed].
  by destruct (fst (serialise_leases rest [])).
Qed.

Lemma serialise_leases_ok lines records out :
  Forall2 (fun lease record => fst (parse_lease (PyStr lease) []) = Ok record)
    lines records ->
  fst (serialise_leases lines out) = Ok (map serialise records).
Proof.
  intros Hall. revert out.
  induction Hall as [|l r ls rs Hl _ IH]; intros out; [done|].
  by rewrite serialise_leases_cons, Hl, IH.
Qed.

Lemma serialise_leases_ok_inv lines dicts out :
  fst (serialise_leases lines out) = Ok dicts ->
  exists records,
    Forall2 (fun lease record =>
               fst (parse_lease (PyStr lease) []) = Ok record) lines records
    /\ dicts = map serialise records.
Proof.
  revert dicts out. induction lines as [|l ls IH]; intros dicts out.
  - intros [= <-]. exists []. by split; [constructor|].
  - rewrite serialise_leases_cons.
    destruct (fst (parse_lease (PyStr l) [])) as [r|x] eqn:Hl; [|done].
    destruct (fst (serialise_leases ls [])) as [ds|x] eqn:Hls; [|done].
    intros [= <-]. destruct (IH _ _ Hls) as (rs & Hall & ->).
    exists (r :: rs). by split; [constructor|].
Qed.

Lemma serialise_leases_raise pre bad post x out :
  Forall (fun lease => is_ok (fst (parse_lease (PyStr lease) []))) pre ->
  fst (parse_lease (PyStr bad) []) = Raise x ->
  fst (serialise_leases (pre ++ bad :: post) out) = Raise x.
Proof.
  intros Hpre Hbad. revert out.
  induction Hpre as [|l pre [r Hl] _ IH]; intros out.
  - simpl app. by rewrite serialise_leases_cons, Hbad.
  - rewrite <- app_comm_cons, serialise_leases_cons, Hl. by rewrite IH.
Qed.

Lemma leases_fst fs module_dir out :
  fst (leases fs module_dir out)
  = match fst (get_lease_file fs (PyStr (static_leasefile module_dir)) []) with
    | Ok lines => fst (serialise_leases lines [])
    | Raise e => Raise e
    end.
Proof.
  unfold leases. apply fst_bind.
  - apply framed_try_files.
  - apply framed_serialise_leases.
Qed.

End leases_facts.

(** X9.  When the lease file is read and each of its lines is parsed,
    [leases] returns the serialised records of the lines, one for each line
    and in the order of the file. *)
Theorem leases_all_parsed `{Libs} (fs : filesystem) (module_dir : string)
    (lines : list string) (records : list LeaseRecord) (out : list output) :
  fst (get_lease_file fs (PyStr (static_leasefile module_dir)) []) = Ok lines ->
  Forall2 (fun lease record => fst (parse_lease (PyStr lease) []) = Ok record)
    lines records ->
  fst (leases fs module_dir out) = Ok (map serialise records).
Proof.
  intros Hlines Hall. rewrite leases_fst, Hlines.
  by apply serialise_leases_ok.
Qed.

Lemma leases_all_parsed_witness :
  fst (leases (H := SimpleLibs.libs) SimpleLibs.fs_default "/srv/backend/api"
         [])
  = Ok (map serialise
          [{| ip_address := 2886730044%N : @ip SimpleLibs.libs;
              mac_address := 187723572702975%N : @eui SimpleLibs.libs;
              lease_expiry_time := 1535916991%Z : @arrow SimpleLibs.libs;
              client_id := "01:aa:bb:cc:dd:ee:ff";
              hostname := "android-2bfa2b2619add6eb" |};
           {| ip_address := 16843009%N : @ip SimpleLibs.libs;
              mac_address := 187723572702975%N : @eui SimpleLibs.libs;
              lease_expiry_time := 1535966088%Z : @arrow SimpleLibs.libs;
              client_id := "";
              hostname := "" |}]).
Proof.
  apply (leases_all_parsed (H := SimpleLibs.libs) SimpleLibs.fs_default
           "/srv/backend/api" SimpleLibs.lease_file).
  - reflexivity.
  - constructor; [reflexivity|]. constructor; [reflexivity|]. constructor.
Defined.

(** X10.  The first line of the lease file that [parse_lease] refuses ends
    [leases] with the exception of that line: the records of the lines
    before it are dropped and the lines after it are not parsed. *)
Theorem leases_first_bad_line `{Libs} (fs : filesystem) (module_dir : string)
    (pre post : list string) (bad : string) (x : exn) (out : list output) :
  fst (get_lease_file fs (PyStr (static_leasefile module_dir)) [])
  = Ok (pre ++ bad :: post) ->
  Forall (fun lease => is_ok (fst (parse_lease (PyStr lease) []))) pre ->
  fst (parse_lease (PyStr bad) []) = Raise x ->
  fst (leases fs module_dir out) = Raise x.
Proof.
  intros Hlines Hpre Hbad. rewrite leases_fst, Hlines.
  by apply serialise_leases_raise.
Qed.

(** A lease file that ends with a blank line. *)
Lemma leases_first_bad_line_witness :
  let nl := String (ascii_of_nat 10) "" in
  let fs path :=
    if bool_decide (path = "/var/lib/misc/dnsmasq.leases")
    then Opened (Ok ["1535966088 aa:bb:cc:dd:ee:ff 1.1.1.1 * *" +:+ nl; nl])
    else OpenRaises (SimpleLibs.no_such_file path) in
  fst (leases (H := SimpleLibs.libs) fs "/srv/backend/api" [])
  = Raise (mk_exn ValueError
             ["not enough values to unpack (expected 5, got 1)"]).
Proof.
  intros nl fs.
  apply (leases_first_bad_line (H := SimpleLibs.libs) fs "/srv/backend/api"
           ["1535966088 aa:bb:cc:dd:ee:ff 1.1.1.1 * *" +:+ nl] [] nl).
  - reflexivity.
  - constructor; [|constructor]. eexists. reflexivity.
  - reflexivity.
Defined.

(** X11.  A list that [leases] returns comes from a file that was read
    whole and whose lines were all parsed: it has one entry for each line,
    the serialised record of that line, and every entry has the five
    keys. *)
Theorem leases_ok_inv `{Libs} (fs : filesystem) (module_dir : string)
    (dicts : list (gmap string string)) (out : list output) :
  fst (leases fs module_dir out) = Ok dicts ->
  exists lines records,
    fst (get_lease_file fs (PyStr (static_leasefile module_dir)) [])
    = Ok lines
    /\ Forall2 (fun lease record =>
                  fst (parse_lease (PyStr lease) []) = Ok record)
         lines records
    /\ dicts = map serialise records
    /\ length dicts = length lines
    /\ Forall (fun d : gmap string string =>
                 dom d = ({["ip_address"; "mac_address"; "lease_expiry_time";
                            "client_id"; "hostname"]} : gset string)) dicts.
Proof.
  rewrite leases_fst.
  destruct (fst (get_lease_file _ _ _)) as [lines|x]; [|done].
  intros Hok. destruct (serialise_leases_ok_inv _ _ _ Hok) as (rs & Hall & ->).
  exists lines, rs. split; [done|]. split; [done|]. split; [done|]. split.
  - rewrite length_map. symmetry. by eapply Forall2_length.
  - clear Hall Hok. induction rs as [|r rs IH]; simpl; constructor;
      [apply serialise_dom|exact IH].
Qed.

(** The lease file of two lines at the first default path: the list has two
    entries, the serialised records of the two lines. *)
Lemma leases_ok_inv_witness :
  let dicts : list (gmap string string) :=
    map (serialise (H := SimpleLibs.libs))
      [{| ip_address := 2886730044%N : @ip SimpleLibs.libs;
          mac_address := 187723572702975%N : @eui SimpleLibs.libs;
          lease_expiry_time := 1535916991%Z : @arrow SimpleLibs.libs;
          client_id := "01:aa:bb:cc:dd:ee:ff";
          hostname := "android-2bfa2b2619add6eb" |};
       {| ip_address := 16843009%N : @ip SimpleLibs.libs;
          mac_address := 187723572702975%N : @eui SimpleLibs.libs;
          lease_expiry_time := 1535966088%Z : @arrow SimpleLibs.libs;
          client_id := "";
          hostname := "" |}] in
  length dicts = 2%nat
  /\ exists lines (records : list (@LeaseRecord SimpleLibs.libs)),
       fst (get_lease_file SimpleLibs.fs_default
              (PyStr (static_leasefile "/srv/backend/api")) [])
       = Ok lines
       /\ Forall2 (fun lease record =>
                     fst (parse_lease (PyStr lease) []) = Ok record)
            lines records
       /\ dicts = map serialise records
       /\ length dicts = length lines
       /\ Forall (fun d : gmap string string =>
                    dom d
                    = ({["ip_address"; "mac_address"; "lease_expiry_time";
                         "client_id"; "hostname"]} : gset string)) dicts.
Proof.
  intros dicts. split; [reflexivity|].
  apply (leases_ok_inv (H := SimpleLibs.libs) SimpleLibs.fs_default
           "/srv/backend/api" dicts []).
  vm_compute. reflexivity.
Defined.

(** X12.  The path that [leases] supplies is never empty, so the
    candidates of the handler are the static lease file next to the module
    and then the two default paths; when the static file fails with an I/O
    error, [leases] serves what [get_lease_file] finds without a path. *)
Theorem leases_static_fallback `{Libs} (fs : filesystem)
    (module_dir : string) (out : list output) :
  files_to_try (PyStr (static_leasefile module_dir))
  = [static_leasefile module_dir; "/var/lib/misc/dnsmasq.leases";
     "/etc/dnsmasq.d/dnsmasq.leases"]
  /\ (io_failure (fs (static_leasefile module_dir)) ->
      fst (leases fs module_dir out)
      = match fst (get_lease_file fs PyNone []) with
        | Ok lines => fst (serialise_leases lines [])
        | Raise e => Raise e
        end).
Proof.
  assert (Hfiles : files_to_try (PyStr (static_leasefile module_dir))
                   = static_leasefile module_dir :: default_lease_files).
  { unfold files_to_try. simpl.
    by rewrite bool_decide_eq_false_2
      by apply static_leasefile_not_empty. }
  split; [exact Hfiles|].
  intros Hio. rewrite leases_fst. unfold get_lease_file.
  by rewrite Hfiles, try_files_skip_fst.
Qed.

Lemma leases_static_fallback_witness :
  fst (leases (H := SimpleLibs.libs) SimpleLibs.fs_default "/srv/backend/api"
         [])
  = match fst (get_lease_file SimpleLibs.fs_default PyNone []) with
    | Ok lines => fst (serialise_leases (H := SimpleLibs.libs) lines [])
    | Raise e => Raise e
    end.
Proof.
  apply (leases_static_fallback (H := SimpleLibs.libs) SimpleLibs.fs_default
           "/srv/backend/api" []).
  exists (SimpleLibs.no_such_file "/srv/backend/api/../../static/leasefile").
  split; [left; reflexivity|reflexivity].
Defined.

(** X13.  [leases] catches nothing: an exception that [get_lease_file]
    raises, the [LeaseParseError] of an unavailable source in particular,
    is the exception that [leases] raises, and then no line is parsed. *)
Theorem leases_reader_failure `{Libs} (fs : filesystem) (module_dir : string)
    (x : exn) (out : list output) :
  fst (get_lease_file fs (PyStr (static_leasefile module_dir)) []) = Raise x ->
  fst (leases fs module_dir out) = Raise x
  /\ snd (leases fs module_dir out)
     = snd (get_lease_file fs (PyStr (static_leasefile module_dir)) out).
Proof.
  intros Hx. split; [by rewrite leases_fst, Hx|].
  unfold leases, bind.
  pose proof (framed_try_files fs
                (files_to_try (PyStr (static_leasefile module_dir))) out)
    as Hfr.
  fold (get_lease_file fs (PyStr (static_leasefile module_dir))) in Hfr.
  rewrite Hfr, Hx. reflexivity.
Qed.

Lemma leases_reader_failure_witness :
  fst (leases (H := SimpleLibs.libs) SimpleLibs.fs_empty "/srv/backend/api"
         [])
  = Raise source_unavailable.
Proof.
  apply (leases_reader_failure (H := SimpleLibs.libs) SimpleLibs.fs_empty
           "/srv/backend/api" source_unavailable []).
  reflexivity.
Defined.

(** ** The validators *)

Section validate_facts.
Context `{ValueLibs}.

Lemma null_check_Some {A} allow_null v examples (r : validated A) :
  null_check allow_null v examples = Some r ->
  r = if allow_null then ReturnsNone else Error "null".
Proof.
  induction examples as [|ex rest IH]; simpl; [done|].
  destruct (value_eq v ex); [by intros [= <-]|exact IH].
Qed.

Lemma null_check_plain {A} allow_null v :
  plain v = true -> null_check (A := A) allow_null v null_values = None.
Proof.
  destruct v; try done. simpl.
  intros Hs%negb_true_iff%bool_decide_eq_false.
  rewrite !bool_decide_eq_false_2; [done|..]; intros ->; apply Hs;
    set_solver.
Qed.

Lemma null_check_null {A} allow_null v :
  v = VNone \/ v = VStr "" \/ v = VStr "null" \/ v = VStr "none" ->
  null_check (A := A) allow_null v null_values
  = Some (if allow_null then ReturnsNone else Error "null").
Proof. intros [->|[->|[->| ->]]]; reflexivity. Qed.

End validate_facts.

Lemma null_check_unequal `{ValueLibs} {A} allow_null v examples :
  Forall (fun example => value_eq v example = false) examples ->
  null_check (A := A) allow_null v examples = None.
Proof.
  induction 1 as [|ex rest Hex _ IH]; simpl; [done|]. by rewrite Hex.
Qed.

(** X14.  [None], the empty string and the strings [null] and [none] are
    null for the three validators: [validate] returns [None] when the
    validator allows null and calls [error('null')] when it does not,
    whatever [allow_coerce], the format and the version are; the two
    strings are never handed to a library. *)
Theorem validate_null_values `{ValueLibs} (v : value) (allow_coerce : bool)
    (a : ArrowValidator) (i : IPAddressValidator) (m : MACValidator) :
  v = VNone \/ v = VStr "" \/ v = VStr "null" \/ v = VStr "none" ->
  ArrowValidator_validate a v allow_coerce
  = (if arrow_allow_null a then ReturnsNone else Error "null")
  /\ IPAddressValidator_validate i v allow_coerce
     = (if ip_allow_null i then ReturnsNone else Error "null")
  /\ MACValidator_validate m v allow_coerce
     = (if mac_allow_null m then ReturnsNone else Error "null").
Proof.
  intros Hv.
  unfold ArrowValidator_validate, IPAddressValidator_validate,
    MACValidator_validate.
  by rewrite !null_check_null.
Qed.

Lemma validate_null_values_witness :
  let v : @value SimpleLibs.libs := VStr "none" in
  ArrowValidator_validate (H0 := SimpleValues.values)
    (mk_ArrowValidator false (Some "X")) v true = Error "null"
  /\ IPAddressValidator_validate (H0 := SimpleValues.values)
       (mk_IPAddressValidator true (Some 4%Z)) v true = ReturnsNone
  /\ MACValidator_validate (H0 := SimpleValues.values)
       (mk_MACValidator false None) v true = Error "null".
Proof.
  intros v.
  apply (validate_null_values (H0 := SimpleValues.values) v true
           (mk_ArrowValidator false (Some "X"))
           (mk_IPAddressValidator true (Some 4%Z))
           (mk_MACValidator false None)).
  do 3 right. reflexivity.
Defined.

(** X15.  An object of the class of the validator that is equal to none of
    the null values is returned as it is, with and without coercion: a
    validator never parses again what is parsed. *)
Theorem validate_own_class `{ValueLibs} (t : arrow) (addr : ip) (mac : eui)
    (allow_coerce : bool)
    (a : ArrowValidator) (i : IPAddressValidator) (m : MACValidator) :
  Forall (fun example => arrow_eq t example = false) null_values ->
  Forall (fun example => ip_eq addr example = false) null_values ->
  Forall (fun example => eui_eq mac example = false) null_values ->
  ArrowValidator_validate a (VArrow t) allow_coerce = Returns (VArrow t)
  /\ IPAddressValidator_validate i (VIPAddress addr) allow_coerce
     = Returns (VIPAddress addr)
  /\ MACValidator_validate m (VEUI mac) allow_coerce = Returns (VEUI mac).
Proof.
  intros Ht Ha Hm.
  unfold ArrowValidator_validate, IPAddressValidator_validate,
    MACValidator_validate.
  by rewrite !null_check_unequal.
Qed.

Lemma validate_own_class_witness :
  ArrowValidator_validate (H0 := SimpleValues.values)
    (mk_ArrowValidator false None) (@VArrow SimpleLibs.libs 1535916991%Z) false
  = Returns (@VArrow SimpleLibs.libs 1535916991%Z)
  /\ IPAddressValidator_validate (H0 := SimpleValues.values)
       (mk_IPAddressValidator false None) (@VIPAddress SimpleLibs.libs 16843009%N) false
     = Returns (@VIPAddress SimpleLibs.libs 16843009%N)
  /\ MACValidator_validate (H0 := SimpleValues.values)
       (mk_MACValidator false None) (@VEUI SimpleLibs.libs 187723572702975%N) false
     = Returns (@VEUI SimpleLibs.libs 187723572702975%N).
Proof.
  apply (validate_own_class (H0 := SimpleValues.values)
           (1535916991%Z : @arrow SimpleLibs.libs)
           (16843009%N : @ip SimpleLibs.libs)
           (187723572702975%N : @eui SimpleLibs.libs) false
           (mk_ArrowValidator false None) (mk_IPAddressValidator false None)
           (mk_MACValidator false None));
    repeat constructor.
Defined.

(** X16.  A builtin value that is not null is refused with
    [error('parse')] when coercion is off, and also when coercion is on and
    the value is of none of the classes that the validator coerces ([str],
    [int], [float], [date] and [datetime] for a time; [str] and [int] for an
    address).  No library is called. *)
Theorem validate_not_coerced `{ValueLibs} (v : value) (allow_coerce : bool)
    (a : ArrowValidator) (i : IPAddressValidator) (m : MACValidator) :
  plain v = true ->
  (allow_coerce = false
   \/ value_isinstance_any v [Cstr; Cint; Cfloat; Cdate; Cdatetime] = false ->
   ArrowValidator_validate a v allow_coerce = Error "parse")
  /\ (allow_coerce = false \/ value_isinstance_any v [Cstr; Cint] = false ->
      IPAddressValidator_validate i v allow_coerce = Error "parse"
      /\ MACValidator_validate m v allow_coerce = Error "parse").
Proof.
  intros Hv.
  unfold ArrowValidator_validate, IPAddressValidator_validate,
    MACValidator_validate.
  rewrite !null_check_plain by done.
  assert (value_isinstance v CArrow = false) as -> by (by destruct v).
  assert (value_isinstance v CIPAddress = false) as -> by (by destruct v).
  assert (value_isinstance v CEUI = false) as -> by (by destruct v).
  split; intros [-> | ->]; by rewrite ?andb_false_r.
Qed.

Lemma validate_not_coerced_witness :
  ArrowValidator_validate (H0 := SimpleValues.values)
    (mk_ArrowValidator false None) (VStr "abc") false = Error "parse"
  /\ IPAddressValidator_validate (H0 := SimpleValues.values)
       (mk_IPAddressValidator false None) (VStr "abc") false = Error "parse"
  /\ MACValidator_validate (H0 := SimpleValues.values)
       (mk_MACValidator false None) (VStr "abc") false = Error "parse".
Proof.
  destruct (validate_not_coerced (H0 := SimpleValues.values)
              (VStr "abc") false (mk_ArrowValidator false None)
              (mk_IPAddressValidator false None) (mk_MACValidator false None)
              eq_refl) as [Ha Hi].
  split; [apply Ha; by left|apply Hi; by left].
Defined.

(** X17.  What [validate] returns, when it is not [None], is an object of
    the class of the validator: the value it was given, if that is one, or
    the object that the library built. *)
Theorem validate_returns_own_class `{ValueLibs} (v w : value)
    (allow_coerce : bool)
    (a : ArrowValidator) (i : IPAddressValidator) (m : MACValidator) :
  (ArrowValidator_validate a v allow_coerce = Returns w ->
   value_isinstance w CArrow = true)
  /\ (IPAddressValidator_validate i v allow_coerce = Returns w ->
      value_isinstance w CIPAddress = true)
  /\ (MACValidator_validate m v allow_coerce = Returns w ->
      value_isinstance w CEUI = true).
Proof.
  unfold ArrowValidator_validate, IPAddressValidator_validate,
    MACValidator_validate.
  split; [|split].
  - destruct (null_check _ v _) as [r|] eqn:Hn.
    { apply null_check_Some in Hn as ->. by destruct (arrow_allow_null a). }
    destruct (value_isinstance v CArrow) eqn:Hc; simpl; [by intros [= <-]|].
    destruct (allow_coerce && _); [|done].
    destruct (match format_str a with Some _ => _ | None => _ end) as [t|e];
      [by intros [= <-]|by destruct (isinstance e ParserError)].
  - destruct (null_check _ v _) as [r|] eqn:Hn.
    { apply null_check_Some in Hn as ->. by destruct (ip_allow_null i). }
    destruct (value_isinstance v CIPAddress) eqn:Hc; simpl;
      [by intros [= <-]|].
    destruct (allow_coerce && _); [|done].
    destruct (match ip_version i with Some _ => _ | None => _ end) as [t|e];
      [by intros [= <-]|by destruct (isinstance e AddrFormatError)].
  - destruct (null_check _ v _) as [r|] eqn:Hn.
    { apply null_check_Some in Hn as ->. by destruct (mac_allow_null m). }
    destruct (value_isinstance v CEUI) eqn:Hc; simpl; [by intros [= <-]|].
    destruct (allow_coerce && _); [|done].
    destruct (match mac_version m with Some _ => _ | None => _ end) as [t|e];
      [by intros [= <-]|by destruct (isinstance e AddrFormatError)].
Qed.

Lemma validate_returns_own_class_witness :
  value_isinstance (@VIPAddress SimpleLibs.libs 16909060%N) CIPAddress = true.
Proof.
  apply (validate_returns_own_class (H0 := SimpleValues.values)
           (VStr "1.2.3.4") (@VIPAddress SimpleLibs.libs 16909060%N) true
           (mk_ArrowValidator false None)
           (mk_IPAddressValidator false (Some 4%Z))
           (mk_MACValidator false None)).
  reflexivity.
Defined.

(** X18.  [validate] fails in three ways only.  It calls [error('null')],
    and then the validator does not allow null; it calls [error('parse')];
    or, with coercion on, it lets through an exception of the library that
    is not of the class its [except] clause names ([ParserError] for a
    time, [AddrFormatError] for an address).  Both codes are keys of
    [errors]; the message of [type] is never used. *)
Theorem validate_failures `{ValueLibs} (v : value) (allow_coerce : bool)
    (a : ArrowValidator) (i : IPAddressValidator) (m : MACValidator) :
  (forall code,
     ArrowValidator_validate a v allow_coerce = Error code ->
     (code = "null" /\ arrow_allow_null a = false \/ code = "parse")
     /\ is_Some (ArrowValidator_errors !! code))
  /\ (forall code,
        IPAddressValidator_validate i v allow_coerce = Error code ->
        (code = "null" /\ ip_allow_null i = false \/ code = "parse")
        /\ is_Some (IPAddressValidator_errors !! code))
  /\ (forall code,
        MACValidator_validate m v allow_coerce = Error code ->
        (code = "null" /\ mac_allow_null m = false \/ code = "parse")
        /\ is_Some (MACValidator_errors !! code))
  /\ (forall e,
        ArrowValidator_validate a v allow_coerce = Raises e ->
        allow_coerce = true /\ isinstance e ParserError = false)
  /\ (forall e,
        IPAddressValidator_validate i v allow_coerce = Raises e
        \/ MACValidator_validate m v allow_coerce = Raises e ->
        allow_coerce = true /\ isinstance e AddrFormatError = false).
Proof.
  unfold ArrowValidator_validate, IPAddressValidator_validate,
    MACValidator_validate.
  split; [|split; [|split; [|split]]].
  - intros code. destruct (null_check _ v _) as [r|] eqn:Hn.
    { apply null_check_Some in Hn as ->.
      destruct (arrow_allow_null a); [done|]. intros [= <-].
      split; [by left|by eexists]. }
    destruct (value_isinstance v CArrow); simpl; [done|].
    destruct (allow_coerce && _);
      [|intros [= <-]; split; [by right|by eexists]].
    destruct (match format_str a with Some _ => _ | None => _ end) as [t|e];
      [done|].
    destruct (isinstance e ParserError); [|done].
    intros [= <-]. split; [by right|by eexists].
  - intros code. destruct (null_check _ v _) as [r|] eqn:Hn.
    { apply null_check_Some in Hn as ->.
      destruct (ip_allow_null i); [done|]. intros [= <-].
      split; [by left|by eexists]. }
    destruct (value_isinstance v CIPAddress); simpl; [done|].
    destruct (allow_coerce && _);
      [|intros [= <-]; split; [by right|by eexists]].
    destruct (match ip_version i with Some _ => _ | None => _ end) as [t|e];
      [done|].
    destruct (isinstance e AddrFormatError); [|done].
    intros [= <-]. split; [by right|by eexists].
  - intros code. destruct (null_check _ v _) as [r|] eqn:Hn.
    { apply null_check_Some in Hn as ->.
      destruct (mac_allow_null m); [done|]. intros [= <-].
      split; [by left|by eexists]. }
    destruct (value_isinstance v CEUI); simpl; [done|].
    destruct (allow_coerce && _);
      [|intros [= <-]; split; [by right|by eexists]].
    destruct (match mac_version m with Some _ => _ | None => _ end) as [t|e];
      [done|].
    destruct (isinstance e AddrFormatError); [|done].
    intros [= <-]. split; [by right|by eexists].
  - intros e. destruct (null_check _ v _) as [r|] eqn:Hn.
    { apply null_check_Some in Hn as ->. by destruct (arrow_allow_null a). }
    destruct (value_isinstance v CArrow); simpl; [done|].
    destruct (allow_coerce && _) eqn:Hc; [|done].
    apply andb_true_iff in Hc as [-> _].
    destruct (match format_str a with Some _ => _ | None => _ end) as [t|x];
      [done|].
    destruct (isinstance x ParserError) eqn:Hx; [done|]. by intros [= <-].
  - intros e [Hr|Hr]; revert Hr.
    + destruct (null_check _ v _) as [r|] eqn:Hn.
      { apply null_check_Some in Hn as ->. by destruct (ip_allow_null i). }
      destruct (value_isinstance v CIPAddress); simpl; [done|].
      destruct (allow_coerce && _) eqn:Hc; [|done].
      apply andb_true_iff in Hc as [-> _].
      destruct (match ip_version i with Some _ => _ | None => _ end)
        as [t|x]; [done|].
      destruct (isinstance x AddrFormatError) eqn:Hx; [done|].
      by intros [= <-].
    + destruct (null_check _ v _) as [r|] eqn:Hn.
      { apply null_check_Some in Hn as ->. by destruct (mac_allow_null m). }
      destruct (value_isinstance v CEUI); simpl; [done|].
      destruct (allow_coerce && _) eqn:Hc; [|done].
      apply andb_true_iff in Hc as [-> _].
      destruct (match mac_version m with Some _ => _ | None => _ end)
        as [t|x]; [done|].
      destruct (isinstance x AddrFormatError) eqn:Hx; [done|].
      by intros [= <-].
Qed.

(** A [float] handed to the time validator: the small library raises
    [TypeError], which is let through. *)
Lemma validate_failures_witness :
  true = true
  /\ isinstance (mk_exn TypeError ["Can't parse single argument"]) ParserError
     = false.
Proof.
  apply (validate_failures (H0 := SimpleValues.values)
           (VFloat 0) true (mk_ArrowValidator false None)
           (mk_IPAddressValidator false None) (mk_MACValidator false None)).
  reflexivity.
Defined.

(** X19.  A validator that [__init__] accepts was given no version (no
    format) or one of the versions of its class, 4 or 6 for an IP address
    and 48 or 64 for a hardware address; [True] is refused although it is an
    [int].  On a string that is not null and with coercion on, it calls the
    library with the version when there is one and without it otherwise; an
    empty format is accepted and counts as no format. *)
Theorem validators_built `{ValueLibs} (s : string) (allow_null : bool) :
  plain (VStr s) = true ->
  (forall fmt a,
     ArrowValidator_init fmt allow_null = Some a ->
     (fmt = PyNone \/ exists f, fmt = PyStr f)
     /\ ArrowValidator_validate a (VStr s) true
        = coerced VArrow ParserError
            match fmt with
            | PyStr f => if bool_decide (f = "") then arrow_get_value (VStr s)
                         else arrow_get_format (VStr s) f
            | _ => arrow_get_value (VStr s)
            end)
  /\ (forall version i,
        IPAddressValidator_init version allow_null = Some i ->
        (version = PyNone \/ version = PyInt 4 \/ version = PyInt 6)
        /\ IPAddressValidator_validate i (VStr s) true
           = coerced VIPAddress AddrFormatError
               match version with
               | PyInt n => IPAddress_version (VStr s) n
               | _ => IPAddress_value (VStr s)
               end)
  /\ (forall version m,
        MACValidator_init version allow_null = Some m ->
        (version = PyNone \/ version = PyInt 48 \/ version = PyInt 64)
        /\ MACValidator_validate m (VStr s) true
           = coerced VEUI AddrFormatError
               match version with
               | PyInt n => EUI_version (VStr s) n
               | _ => EUI_value (VStr s)
               end).
Proof.
  intros Hs.
  unfold ArrowValidator_validate, IPAddressValidator_validate,
    MACValidator_validate, ArrowValidator_init, IPAddressValidator_init,
    MACValidator_init, checked_version.
  split; [|split].
  - intros fmt a Ha. rewrite null_check_plain by done.
    destruct fmt as [| | |f| |]; try done; injection Ha as <-; simpl.
    + split; [by left|done].
    + split; [right; by exists f|]. by case_bool_decide.
  - intros version i Hi. rewrite null_check_plain by done.
    destruct version as [|[]|n| | |]; try done.
    + injection Hi as <-. split; [by left|done].
    + case_bool_decide as Hn; [|done]. injection Hi as <-.
      apply elem_of_cons in Hn as [Hn|Hn]; [subst n; split; [auto|done]|].
      apply elem_of_cons in Hn as [Hn|Hn]; [subst n; split; [auto|done]|].
      by apply elem_of_nil in Hn.
  - intros version m Hm. rewrite null_check_plain by done.
    destruct version as [|[]|n| | |]; try done.
    + injection Hm as <-. split; [by left|done].
    + case_bool_decide as Hn; [|done]. injection Hm as <-.
      apply elem_of_cons in Hn as [Hn|Hn]; [subst n; split; [auto|done]|].
      apply elem_of_cons in Hn as [Hn|Hn]; [subst n; split; [auto|done]|].
      by apply elem_of_nil in Hn.
Qed.

(** The addresses of the tests of the validators, with their version. *)
Lemma validators_built_witness :
  IPAddressValidator_validate (H0 := SimpleValues.values)
    (mk_IPAddressValidator false (Some 4%Z)) (VStr "1.2.3.4") true
  = Returns (@VIPAddress SimpleLibs.libs 16909060%N)
  /\ IPAddressValidator_validate (H0 := SimpleValues.values)
       (mk_IPAddressValidator false (Some 6%Z)) (VStr "1.2.3.4") true
     = Error "parse".
Proof.
  destruct (validators_built (H0 := SimpleValues.values) "1.2.3.4" false
              eq_refl) as (_ & Hip & _).
  split.
  - exact (proj2 (Hip (PyInt 4) (mk_IPAddressValidator false (Some 4%Z))
                    eq_refl)).
  - exact (proj2 (Hip (PyInt 6) (mk_IPAddressValidator false (Some 6%Z))
                    eq_refl)).
Defined.

(** ** The version of the package *)

Lemma lstrip_chars_leading chars ws s :
  all_in chars ws = true -> lstrip_chars chars (ws +:+ s) = lstrip_chars chars s.
Proof.
  induction ws as [|c ws IH]; [done|].
  change (String c ws +:+ s) with (String c (ws +:+ s)). simpl.
  intros [Hc Hs]%andb_true_iff. rewrite Hc. by apply IH.
Qed.

Lemma rstrip_chars_app_char chars s c :
  contains c chars = true ->
  rstrip_chars chars (s +:+ String c "") = rstrip_chars chars s.
Proof.
  intros Hc. induction s as [|c' s IH].
  - simpl. by rewrite Hc.
  - change (String c' s +:+ String c "") with (String c' (s +:+ String c "")).
    simpl. by rewrite IH.
Qed.

Lemma lstrip_chars_app_char chars s c :
  contains c chars = true ->
  (lstrip_chars chars (s +:+ String c "") = ""
   /\ lstrip_chars chars s = "")
  \/ lstrip_chars chars (s +:+ String c "")
     = lstrip_chars chars s +:+ String c "".
Proof.
  intros Hc. induction s as [|c' s IH].
  - left. simpl. by rewrite Hc.
  - change (String c' s +:+ String c "") with (String c' (s +:+ String c "")).
    simpl. destruct (contains c' chars); [exact IH|by right].
Qed.

Lemma strip_chars_trailing_char chars s c :
  contains c chars = true ->
  strip_chars chars (s +:+ String c "") = strip_chars chars s.
Proof.
  intros Hc. unfold strip_chars.
  destruct (lstrip_chars_app_char chars s c Hc) as [[H1 H2]|H1]; rewrite H1.
  - by rewrite H2.
  - by apply rstrip_chars_app_char.
Qed.

Lemma strip_chars_trailing chars ws s :
  all_in chars ws = true -> strip_chars chars (s +:+ ws) = strip_chars chars s.
Proof.
  revert s. induction ws as [|c ws IH]; intros s.
  - intros _. by rewrite string_app_nil_r.
  - simpl. intros [Hc Hs]%andb_true_iff.
    change (String c ws) with (String c "" +:+ ws).
    rewrite <- string_app_assoc, IH by done.
    by apply strip_chars_trailing_char.
Qed.

(** Characters of [chars] around a string do not change its
    [strip(chars)]. *)
Lemma strip_chars_padding chars ws ws' s :
  all_in chars ws = true -> all_in chars ws' = true ->
  strip_chars chars (ws +:+ s +:+ ws') = strip_chars chars s.
Proof.
  intros Hws Hws'. rewrite <- string_app_assoc, strip_chars_trailing by done.
  unfold strip_chars. by rewrite lstrip_chars_leading.
Qed.

Lemma package_version_skip pre lines :
  Forall (fun line => startswith "__version__" line = false) pre ->
  package_version (pre ++ lines) = package_version lines.
Proof.
  induction 1 as [|line pre Hline _ IH]; [done|].
  rewrite <- app_comm_cons. cbn [package_version]. by rewrite Hline.
Qed.

(** X20.  A version written on the first [__version__] line as
    [__version__ = '<version>'], the line ending with white space or not, is
    read back as it is, when it holds no [=] and neither starts nor ends
    with a space or a quote. *)
Theorem package_version_round_trip (pre post : list string)
    (version ws : string) :
  Forall (fun line => startswith "__version__" line = false) pre ->
  contains "=" version = false ->
  strip_chars quotes version = version ->
  all_space ws = true ->
  package_version
    (pre ++ ("__version__ = '" +:+ version +:+ "'" +:+ ws) :: post)
  = Version version.
Proof.
  intros Hpre Heq Hclean Hws. rewrite package_version_skip by done.
  cbn [package_version].
  assert (Hstart : startswith "__version__"
                     ("__version__ = '" +:+ version +:+ "'" +:+ ws) = true)
    by reflexivity.
  rewrite Hstart.
  assert (Hstrip : strip ("__version__ = '" +:+ version +:+ "'" +:+ ws)
                   = "__version__ = '" +:+ version +:+ "'").
  { rewrite <- !string_app_assoc, strip_trailing by done.
    unfold strip.
    change (lstrip (("__version__ = '" +:+ version) +:+ "'"))
      with (("__version__ = '" +:+ version) +:+ "'").
    by apply rstrip_last_not_space. }
  rewrite Hstrip.
  change ("__version__ = '" +:+ version +:+ "'")
    with ("__version__ " +:+ String "=" (" '" +:+ version +:+ "'")).
  rewrite split_app_sep by reflexivity.
  assert (Hno : contains "=" (" '" +:+ version +:+ "'") = false).
  { change (" '" +:+ version +:+ "'")
      with (String " " (String "'" (version +:+ "'"))).
    cbn [contains Ascii.eqb]. simpl orb.
    clear -Heq. induction version as [|c v IH]; [done|].
    change (String c v +:+ "'") with (String c (v +:+ "'")).
    simpl in *. apply orb_false_iff in Heq as [Hc Hv].
    rewrite Hc. by apply IH. }
  rewrite (split_no_sep _ _ Hno).
  f_equal. rewrite <- Hclean at 2.
  by apply (strip_chars_padding quotes " '" "'" version).
Qed.

Lemma package_version_round_trip_witness :
  let nl := String (ascii_of_nat 10) "" in
  package_version
    (["'''Backend service.'''" +:+ nl; nl;
      "__version__ = '" +:+ "1.2.3" +:+ "'" +:+ nl]
     ++ ["__author__ = 'Sam'" +:+ nl])
  = Version "1.2.3".
Proof.
  intros nl.
  apply (package_version_round_trip
           ["'''Backend service.'''" +:+ nl; nl]
           ["__author__ = 'Sam'" +:+ nl] "1.2.3" nl);
    [repeat constructor|reflexivity|reflexivity|reflexivity].
Defined.

(** X21.  The first line that starts with [__version__] decides: the lines
    before it and after it do not matter.  Without such a line the version
    is [0.0.1]; when that line has no [=], the subscript raises
    [IndexError] and no version is found, whatever follows. *)
Theorem package_version_first_line (pre post : list string) (line : string) :
  Forall (fun l => startswith "__version__" l = false) pre ->
  package_version pre = Version "0.0.1"
  /\ (startswith "__version__" line = true ->
      package_version (pre ++ line :: post) = package_version [line]
      /\ (contains "=" (strip line) = false ->
          package_version (pre ++ line :: post) = IndexError)).
Proof.
  intros Hpre. split.
  - rewrite <- (app_nil_r pre). by rewrite package_version_skip.
  - intros Hline. rewrite package_version_skip by done.
    cbn [package_version]. rewrite Hline. split.
    + by destruct (split "=" (strip line)) as [|? [|? ?]].
    + intros Hno. by rewrite (split_no_sep _ _ Hno).
Qed.

Lemma package_version_first_line_witness :
  package_version ["import os"; "__version__"; "__version__ = '1.0'"]
  = IndexError.
Proof.
  destruct (package_version_first_line ["import os"]
              ["__version__ = '1.0'"] "__version__")
    as [_ Hline]; [repeat constructor|].
  apply Hline; reflexivity.
Defined.
